(** * ATS resume checker: a shallow embedding of [app.py]

    The analysis pipeline of [app.py] (tokenizer, keyword selection,
    matching and scoring, formatting checks, tips) as Rocq functions,
    followed by the properties proved about it.

    Texts are values of [string]: a sequence of characters, each one a
    code point in U+0000..U+00FF.  On that range Python's [str.lower],
    [str.isspace] and the classes [\w], [\d], [\s] of the [re] module are
    finite tables, written out below; [str.lower] is a character-wise map
    there and stays inside the range.  The tokenizer is given a second
    time on sequences of arbitrary code points (module [Uni]), with the
    tables of Unicode 14.0; the two agree on U+0000..U+00FF.

    The route is [analyze_request], a function of the parsed JSON body;
    [analyze] is what it does once both fields are strings.

    A Python [set] of strings is a [gset string].  The order in which a
    set is enumerated is left open: the matching loop is a function of the
    list [list(target_keywords)], and the properties hold for every such
    list.  A [Counter] is an association list in insertion order.  The
    score is computed on binary64 values ([SpecFloat]). *)

From Stdlib Require Import ZArith NArith Ascii String List Bool Lia.
From Stdlib Require Import Floats.SpecFloat.
From stdpp Require Import base decidable list sorting sets gmap strings.

Set Warnings "-clear-no-such-hyp,-register-all".
Local Open Scope list_scope.
Local Open Scope nat_scope.

(** String concatenation computes under [simpl]. *)
Local Arguments String.append !s1 s2 : simpl nomatch.

(** ** Characters *)

Module Chr.

Definition code (c : ascii) : N := N_of_ascii c.

Definition between (lo hi : N) (c : ascii) : bool :=
  ((lo <=? code c) && (code c <=? hi))%N.

Definition at_code (n : N) (c : ascii) : bool := (code c =? n)%N.

(** [a-z], [A-Z], [0-9] *)
Definition ascii_lower (c : ascii) : bool := between 97 122 c.
Definition ascii_upper (c : ascii) : bool := between 65 90 c.
Definition ascii_digit (c : ascii) : bool := between 48 57 c.

(** [A-Za-z0-9] *)
Definition ascii_alnum (c : ascii) : bool :=
  ascii_lower c || ascii_upper c || ascii_digit c.

(** The class [[a-z0-9]] of [clean_text]. *)
Definition lower_alnum (c : ascii) : bool := ascii_lower c || ascii_digit c.

(** [str.lower] on one character: A-Z, and the upper-case letters
    U+00C0..U+00DE except the multiplication sign U+00D7, move up by 32. *)
Definition lower (c : ascii) : ascii :=
  if ascii_upper c || (between 192 222 c && negb (at_code 215 c))
  then ascii_of_N (code c + 32)
  else c.

(** [str.isspace], which is also the class [\s]:
    U+0009..U+000D, U+001C..U+0020, U+0085, U+00A0. *)
Definition isspace (c : ascii) : bool :=
  between 9 13 c || between 28 32 c || at_code 133 c || at_code 160 c.

(** The class [\d]: the decimal digits, in this range 0-9 only. *)
Definition digit (c : ascii) : bool := ascii_digit c.

(** [str.isalpha]: the letters.  Above U+007F these are U+00AA, U+00B5,
    U+00BA, U+00C0..U+00D6, U+00D8..U+00F6, U+00F8..U+00FF. *)
Definition alpha (c : ascii) : bool :=
  ascii_lower c || ascii_upper c
  || at_code 170 c || at_code 181 c || at_code 186 c
  || between 192 214 c || between 216 246 c || between 248 255 c.

(** The class [\w]: alphanumeric characters and the underscore.  Above
    U+007F these are U+00AA, U+00B2, U+00B3, U+00B5, U+00B9, U+00BA,
    U+00BC..U+00BE, U+00C0..U+00D6, U+00D8..U+00F6, U+00F8..U+00FF. *)
Definition word (c : ascii) : bool :=
  ascii_alnum c || at_code 95 c
  || at_code 170 c || at_code 178 c || at_code 179 c || at_code 181 c
  || at_code 185 c || at_code 186 c
  || between 188 190 c || between 192 214 c || between 216 246 c
  || between 248 255 c.

End Chr.

(** ** Strings *)

Module Str.

(** [s.lower()] *)
Fixpoint lower (s : string) : string :=
  match s with
  | EmptyString => EmptyString
  | String c s' => String (Chr.lower c) (lower s')
  end.

(** Every character of [s] satisfies [p]. *)
Fixpoint all (p : ascii -> bool) (s : string) : bool :=
  match s with
  | EmptyString => true
  | String c s' => p c && all p s'
  end.

(** [s.startswith(k)] *)
Fixpoint startswith (k s : string) : bool :=
  match k, s with
  | EmptyString, _ => true
  | String a k', String b s' => if decide (a = b) then startswith k' s' else false
  | String _ _, EmptyString => false
  end.

(** [k in s]: [k] occurs in [s] as a substring. *)
Fixpoint contains (k s : string) : bool :=
  startswith k s ||
  match s with
  | EmptyString => false
  | String _ s' => contains k s'
  end.

(** The words collected by [s.split()]: [cur] is the word being read. *)
Definition flush (cur : string) : list string :=
  match cur with
  | EmptyString => []
  | _ => [cur]
  end.

Fixpoint split_go (cur : string) (s : string) : list string :=
  match s with
  | EmptyString => flush cur
  | String c s' =>
      if Chr.isspace c then flush cur ++ split_go EmptyString s'
      else split_go (cur +:+ String c EmptyString) s'
  end.

(** [s.split()]: maximal runs of characters that are not white space. *)
Definition split (s : string) : list string := split_go EmptyString s.

(** [sep.join(l)] *)
Fixpoint join (sep : string) (l : list string) : string :=
  match l with
  | [] => EmptyString
  | [x] => x
  | x :: l' => x +:+ sep +:+ join sep l'
  end.

End Str.

(** ** Configuration and data lists *)

Definition COMMON_STOP_WORDS : gset string :=
  list_to_set
    [ "and"; "the"; "for"; "with"; "you"; "that"; "are"; "this"; "from"; "will";
      "have"; "your"; "our"; "can"; "all"; "but"; "not"; "of"; "in"; "to"; "is";
      "a"; "an"; "or"; "as"; "be"; "by"; "on"; "at"; "it" ].

Definition TECH_SKILLS_list : list string :=
    [ "javascript"; "python"; "java"; "react"; "angular"; "vue"; "html"; "css";
      "typescript"; "sql"; "aws"; "docker"; "kubernetes"; "git"; "jira"; "agile";
      "scrum"; "communication"; "leadership"; "redux"; "node"; "express";
      "mongodb"; "ci/cd"; "frontend"; "backend"; "fullstack"; "api"; "rest";
      "graphql"; "machine learning"; "data analysis"; "go"; "rust"; "c++"; "c#";
      "azure"; "gcp"; "terraform"; "jenkins"; "linux"; "bash"; "design patterns" ].

Definition TECH_SKILLS : gset string := list_to_set TECH_SKILLS_list.

Definition SOFT_SKILLS : gset string :=
  list_to_set
    [ "communication"; "leadership"; "teamwork"; "agile"; "scrum";
      "collaboration"; "problem-solving"; "adaptability"; "time management";
      "critical thinking"; "creativity" ].

(** ** Helper functions *)

(** [re.sub(r'[^a-z0-9\s]', ' ', text)] *)
Fixpoint sub_special (text : string) : string :=
  match text with
  | EmptyString => EmptyString
  | String c s' =>
      String (if Chr.lower_alnum c || Chr.isspace c then c else " "%char)
             (sub_special s')
  end.

(** [clean_text]: lower-case, blank out everything but [a-z0-9] and white
    space, split into words, keep the words longer than 2. *)
Definition clean_text (text : string) : list string :=
  let text := Str.lower text in
  let text := sub_special text in
  filter (λ w, 2 < String.length w) (Str.split text).


(** ** Texts over all of Unicode

    A Python [str] is a sequence of code points U+0000..U+10FFFF.  The
    tokenizer is given a second time on such sequences, with the
    character tables of Unicode 14.0 that Python 3.11 carries.  Each table
    is a list of ranges of code points. *)

Module Uni.

Definition text := list N.

Definition in_ranges (c : N) (ranges : list (N * N)) : bool :=
  existsb (λ r, (r.1 <=? c) && (c <=? r.2))%N ranges.

(** The code points of [str.isspace], which are also those of the class
    [\s] of a [str] pattern. *)
Definition White_Space : list (N * N) :=
  [ (0x0009, 0x000D); (0x001C, 0x0020); (0x0085, 0x0085); (0x00A0, 0x00A0);
    (0x1680, 0x1680); (0x2000, 0x200A); (0x2028, 0x2029); (0x202F, 0x202F);
    (0x205F, 0x205F); (0x3000, 0x3000) ]%N.

(** The cased code points: [str.islower], [str.isupper] or title case. *)
Definition Cased : list (N * N) :=
  [ (0x0041, 0x005A); (0x0061, 0x007A); (0x00AA, 0x00AA); (0x00B5, 0x00B5);
    (0x00BA, 0x00BA); (0x00C0, 0x00D6); (0x00D8, 0x00F6); (0x00F8, 0x01BA);
    (0x01BC, 0x01BF); (0x01C4, 0x0293); (0x0295, 0x02B8); (0x02C0, 0x02C1);
    (0x02E0, 0x02E4); (0x0345, 0x0345); (0x0370, 0x0373); (0x0376, 0x0377);
    (0x037A, 0x037D); (0x037F, 0x037F); (0x0386, 0x0386); (0x0388, 0x038A);
    (0x038C, 0x038C); (0x038E, 0x03A1); (0x03A3, 0x03F5); (0x03F7, 0x0481);
    (0x048A, 0x052F); (0x0531, 0x0556); (0x0560, 0x0588); (0x10A0, 0x10C5);
    (0x10C7, 0x10C7); (0x10CD, 0x10CD); (0x10D0, 0x10FA); (0x10FD, 0x10FF);
    (0x13A0, 0x13F5); (0x13F8, 0x13FD); (0x1C80, 0x1C88); (0x1C90, 0x1CBA);
    (0x1CBD, 0x1CBF); (0x1D00, 0x1DBF); (0x1E00, 0x1F15); (0x1F18, 0x1F1D);
    (0x1F20, 0x1F45); (0x1F48, 0x1F4D); (0x1F50, 0x1F57); (0x1F59, 0x1F59);
    (0x1F5B, 0x1F5B); (0x1F5D, 0x1F5D); (0x1F5F, 0x1F7D); (0x1F80, 0x1FB4);
    (0x1FB6, 0x1FBC); (0x1FBE, 0x1FBE); (0x1FC2, 0x1FC4); (0x1FC6, 0x1FCC);
    (0x1FD0, 0x1FD3); (0x1FD6, 0x1FDB); (0x1FE0, 0x1FEC); (0x1FF2, 0x1FF4);
    (0x1FF6, 0x1FFC); (0x2071, 0x2071); (0x207F, 0x207F); (0x2090, 0x209C);
    (0x2102, 0x2102); (0x2107, 0x2107); (0x210A, 0x2113); (0x2115, 0x2115);
    (0x2119, 0x211D); (0x2124, 0x2124); (0x2126, 0x2126); (0x2128, 0x2128);
    (0x212A, 0x212D); (0x212F, 0x2134); (0x2139, 0x2139); (0x213C, 0x213F);
    (0x2145, 0x2149); (0x214E, 0x214E); (0x2160, 0x217F); (0x2183, 0x2184);
    (0x24B6, 0x24E9); (0x2C00, 0x2CE4); (0x2CEB, 0x2CEE); (0x2CF2, 0x2CF3);
    (0x2D00, 0x2D25); (0x2D27, 0x2D27); (0x2D2D, 0x2D2D); (0xA640, 0xA66D);
    (0xA680, 0xA69D); (0xA722, 0xA787); (0xA78B, 0xA78E); (0xA790, 0xA7CA);
    (0xA7D0, 0xA7D1); (0xA7D3, 0xA7D3); (0xA7D5, 0xA7D9); (0xA7F5, 0xA7F6);
    (0xA7F8, 0xA7FA); (0xAB30, 0xAB5A); (0xAB5C, 0xAB68); (0xAB70, 0xABBF);
    (0xFB00, 0xFB06); (0xFB13, 0xFB17); (0xFF21, 0xFF3A); (0xFF41, 0xFF5A);
    (0x10400, 0x1044F); (0x104B0, 0x104D3); (0x104D8, 0x104FB); (0x10570, 0x1057A);
    (0x1057C, 0x1058A); (0x1058C, 0x10592); (0x10594, 0x10595); (0x10597, 0x105A1);
    (0x105A3, 0x105B1); (0x105B3, 0x105B9); (0x105BB, 0x105BC); (0x10780, 0x10780);
    (0x10783, 0x10785); (0x10787, 0x107B0); (0x107B2, 0x107BA); (0x10C80, 0x10CB2);
    (0x10CC0, 0x10CF2); (0x118A0, 0x118DF); (0x16E40, 0x16E7F); (0x1D400, 0x1D454);
    (0x1D456, 0x1D49C); (0x1D49E, 0x1D49F); (0x1D4A2, 0x1D4A2); (0x1D4A5, 0x1D4A6);
    (0x1D4A9, 0x1D4AC); (0x1D4AE, 0x1D4B9); (0x1D4BB, 0x1D4BB); (0x1D4BD, 0x1D4C3);
    (0x1D4C5, 0x1D505); (0x1D507, 0x1D50A); (0x1D50D, 0x1D514); (0x1D516, 0x1D51C);
    (0x1D51E, 0x1D539); (0x1D53B, 0x1D53E); (0x1D540, 0x1D544); (0x1D546, 0x1D546);
    (0x1D54A, 0x1D550); (0x1D552, 0x1D6A5); (0x1D6A8, 0x1D6C0); (0x1D6C2, 0x1D6DA);
    (0x1D6DC, 0x1D6FA); (0x1D6FC, 0x1D714); (0x1D716, 0x1D734); (0x1D736, 0x1D74E);
    (0x1D750, 0x1D76E); (0x1D770, 0x1D788); (0x1D78A, 0x1D7A8); (0x1D7AA, 0x1D7C2);
    (0x1D7C4, 0x1D7CB); (0x1DF00, 0x1DF09); (0x1DF0B, 0x1DF1E); (0x1E900, 0x1E943);
    (0x1F130, 0x1F149); (0x1F150, 0x1F169); (0x1F170, 0x1F189) ]%N.

(** The case-ignorable code points. *)
Definition Case_Ignorable : list (N * N) :=
  [ (0x0027, 0x0027); (0x002E, 0x002E); (0x003A, 0x003A); (0x005E, 0x005E);
    (0x0060, 0x0060); (0x00A8, 0x00A8); (0x00AD, 0x00AD); (0x00AF, 0x00AF);
    (0x00B4, 0x00B4); (0x00B7, 0x00B8); (0x02B0, 0x036F); (0x0374, 0x0375);
    (0x037A, 0x037A); (0x0384, 0x0385); (0x0387, 0x0387); (0x0483, 0x0489);
    (0x0559, 0x0559); (0x055F, 0x055F); (0x0591, 0x05BD); (0x05BF, 0x05BF);
    (0x05C1, 0x05C2); (0x05C4, 0x05C5); (0x05C7, 0x05C7); (0x05F4, 0x05F4);
    (0x0600, 0x0605); (0x0610, 0x061A); (0x061C, 0x061C); (0x0640, 0x0640);
    (0x064B, 0x065F); (0x0670, 0x0670); (0x06D6, 0x06DD); (0x06DF, 0x06E8);
    (0x06EA, 0x06ED); (0x070F, 0x070F); (0x0711, 0x0711); (0x0730, 0x074A);
    (0x07A6, 0x07B0); (0x07EB, 0x07F5); (0x07FA, 0x07FA); (0x07FD, 0x07FD);
    (0x0816, 0x082D); (0x0859, 0x085B); (0x0888, 0x0888); (0x0890, 0x0891);
    (0x0898, 0x089F); (0x08C9, 0x0902); (0x093A, 0x093A); (0x093C, 0x093C);
    (0x0941, 0x0948); (0x094D, 0x094D); (0x0951, 0x0957); (0x0962, 0x0963);
    (0x0971, 0x0971); (0x0981, 0x0981); (0x09BC, 0x09BC); (0x09C1, 0x09C4);
    (0x09CD, 0x09CD); (0x09E2, 0x09E3); (0x09FE, 0x09FE); (0x0A01, 0x0A02);
    (0x0A3C, 0x0A3C); (0x0A41, 0x0A42); (0x0A47, 0x0A48); (0x0A4B, 0x0A4D);
    (0x0A51, 0x0A51); (0x0A70, 0x0A71); (0x0A75, 0x0A75); (0x0A81, 0x0A82);
    (0x0ABC, 0x0ABC); (0x0AC1, 0x0AC5); (0x0AC7, 0x0AC8); (0x0ACD, 0x0ACD);
    (0x0AE2, 0x0AE3); (0x0AFA, 0x0AFF); (0x0B01, 0x0B01); (0x0B3C, 0x0B3C);
    (0x0B3F, 0x0B3F); (0x0B41, 0x0B44); (0x0B4D, 0x0B4D); (0x0B55, 0x0B56);
    (0x0B62, 0x0B63); (0x0B82, 0x0B82); (0x0BC0, 0x0BC0); (0x0BCD, 0x0BCD);
    (0x0C00, 0x0C00); (0x0C04, 0x0C04); (0x0C3C, 0x0C3C); (0x0C3E, 0x0C40);
    (0x0C46, 0x0C48); (0x0C4A, 0x0C4D); (0x0C55, 0x0C56); (0x0C62, 0x0C63);
    (0x0C81, 0x0C81); (0x0CBC, 0x0CBC); (0x0CBF, 0x0CBF); (0x0CC6, 0x0CC6);
    (0x0CCC, 0x0CCD); (0x0CE2, 0x0CE3); (0x0D00, 0x0D01); (0x0D3B, 0x0D3C);
    (0x0D41, 0x0D44); (0x0D4D, 0x0D4D); (0x0D62, 0x0D63); (0x0D81, 0x0D81);
    (0x0DCA, 0x0DCA); (0x0DD2, 0x0DD4); (0x0DD6, 0x0DD6); (0x0E31, 0x0E31);
    (0x0E34, 0x0E3A); (0x0E46, 0x0E4E); (0x0EB1, 0x0EB1); (0x0EB4, 0x0EBC);
    (0x0EC6, 0x0EC6); (0x0EC8, 0x0ECD); (0x0F18, 0x0F19); (0x0F35, 0x0F35);
    (0x0F37, 0x0F37); (0x0F39, 0x0F39); (0x0F71, 0x0F7E); (0x0F80, 0x0F84);
    (0x0F86, 0x0F87); (0x0F8D, 0x0F97); (0x0F99, 0x0FBC); (0x0FC6, 0x0FC6);
    (0x102D, 0x1030); (0x1032, 0x1037); (0x1039, 0x103A); (0x103D, 0x103E);
    (0x1058, 0x1059); (0x105E, 0x1060); (0x1071, 0x1074); (0x1082, 0x1082);
    (0x1085, 0x1086); (0x108D, 0x108D); (0x109D, 0x109D); (0x10FC, 0x10FC);
    (0x135D, 0x135F); (0x1712, 0x1714); (0x1732, 0x1733); (0x1752, 0x1753);
    (0x1772, 0x1773); (0x17B4, 0x17B5); (0x17B7, 0x17BD); (0x17C6, 0x17C6);
    (0x17C9, 0x17D3); (0x17D7, 0x17D7); (0x17DD, 0x17DD); (0x180B, 0x180F);
    (0x1843, 0x1843); (0x1885, 0x1886); (0x18A9, 0x18A9); (0x1920, 0x1922);
    (0x1927, 0x1928); (0x1932, 0x1932); (0x1939, 0x193B); (0x1A17, 0x1A18);
    (0x1A1B, 0x1A1B); (0x1A56, 0x1A56); (0x1A58, 0x1A5E); (0x1A60, 0x1A60);
    (0x1A62, 0x1A62); (0x1A65, 0x1A6C); (0x1A73, 0x1A7C); (0x1A7F, 0x1A7F);
    (0x1AA7, 0x1AA7); (0x1AB0, 0x1ACE); (0x1B00, 0x1B03); (0x1B34, 0x1B34);
    (0x1B36, 0x1B3A); (0x1B3C, 0x1B3C); (0x1B42, 0x1B42); (0x1B6B, 0x1B73);
    (0x1B80, 0x1B81); (0x1BA2, 0x1BA5); (0x1BA8, 0x1BA9); (0x1BAB, 0x1BAD);
    (0x1BE6, 0x1BE6); (0x1BE8, 0x1BE9); (0x1BED, 0x1BED); (0x1BEF, 0x1BF1);
    (0x1C2C, 0x1C33); (0x1C36, 0x1C37); (0x1C78, 0x1C7D); (0x1CD0, 0x1CD2);
    (0x1CD4, 0x1CE0); (0x1CE2, 0x1CE8); (0x1CED, 0x1CED); (0x1CF4, 0x1CF4);
    (0x1CF8, 0x1CF9); (0x1D2C, 0x1D6A); (0x1D78, 0x1D78); (0x1D9B, 0x1DFF);
    (0x1FBD, 0x1FBD); (0x1FBF, 0x1FC1); (0x1FCD, 0x1FCF); (0x1FDD, 0x1FDF);
    (0x1FED, 0x1FEF); (0x1FFD, 0x1FFE); (0x200B, 0x200F); (0x2018, 0x2019);
    (0x2024, 0x2024); (0x2027, 0x2027); (0x202A, 0x202E); (0x2060, 0x2064);
    (0x2066, 0x206F); (0x2071, 0x2071); (0x207F, 0x207F); (0x2090, 0x209C);
    (0x20D0, 0x20F0); (0x2C7C, 0x2C7D); (0x2CEF, 0x2CF1); (0x2D6F, 0x2D6F);
    (0x2D7F, 0x2D7F); (0x2DE0, 0x2DFF); (0x2E2F, 0x2E2F); (0x3005, 0x3005);
    (0x302A, 0x302D); (0x3031, 0x3035); (0x303B, 0x303B); (0x3099, 0x309E);
    (0x30FC, 0x30FE); (0xA015, 0xA015); (0xA4F8, 0xA4FD); (0xA60C, 0xA60C);
    (0xA66F, 0xA672); (0xA674, 0xA67D); (0xA67F, 0xA67F); (0xA69C, 0xA69F);
    (0xA6F0, 0xA6F1); (0xA700, 0xA721); (0xA770, 0xA770); (0xA788, 0xA78A);
    (0xA7F2, 0xA7F4); (0xA7F8, 0xA7F9); (0xA802, 0xA802); (0xA806, 0xA806);
    (0xA80B, 0xA80B); (0xA825, 0xA826); (0xA82C, 0xA82C); (0xA8C4, 0xA8C5);
    (0xA8E0, 0xA8F1); (0xA8FF, 0xA8FF); (0xA926, 0xA92D); (0xA947, 0xA951);
    (0xA980, 0xA982); (0xA9B3, 0xA9B3); (0xA9B6, 0xA9B9); (0xA9BC, 0xA9BD);
    (0xA9CF, 0xA9CF); (0xA9E5, 0xA9E6); (0xAA29, 0xAA2E); (0xAA31, 0xAA32);
    (0xAA35, 0xAA36); (0xAA43, 0xAA43); (0xAA4C, 0xAA4C); (0xAA70, 0xAA70);
    (0xAA7C, 0xAA7C); (0xAAB0, 0xAAB0); (0xAAB2, 0xAAB4); (0xAAB7, 0xAAB8);
    (0xAABE, 0xAABF); (0xAAC1, 0xAAC1); (0xAADD, 0xAADD); (0xAAEC, 0xAAED);
    (0xAAF3, 0xAAF4); (0xAAF6, 0xAAF6); (0xAB5B, 0xAB5F); (0xAB69, 0xAB6B);
    (0xABE5, 0xABE5); (0xABE8, 0xABE8); (0xABED, 0xABED); (0xFB1E, 0xFB1E);
    (0xFBB2, 0xFBC2); (0xFE00, 0xFE0F); (0xFE13, 0xFE13); (0xFE20, 0xFE2F);
    (0xFE52, 0xFE52); (0xFE55, 0xFE55); (0xFEFF, 0xFEFF); (0xFF07, 0xFF07);
    (0xFF0E, 0xFF0E); (0xFF1A, 0xFF1A); (0xFF3E, 0xFF3E); (0xFF40, 0xFF40);
    (0xFF70, 0xFF70); (0xFF9E, 0xFF9F); (0xFFE3, 0xFFE3); (0xFFF9, 0xFFFB);
    (0x101FD, 0x101FD); (0x102E0, 0x102E0); (0x10376, 0x1037A); (0x10780, 0x10785);
    (0x10787, 0x107B0); (0x107B2, 0x107BA); (0x10A01, 0x10A03); (0x10A05, 0x10A06);
    (0x10A0C, 0x10A0F); (0x10A38, 0x10A3A); (0x10A3F, 0x10A3F); (0x10AE5, 0x10AE6);
    (0x10D24, 0x10D27); (0x10EAB, 0x10EAC); (0x10F46, 0x10F50); (0x10F82, 0x10F85);
    (0x11001, 0x11001); (0x11038, 0x11046); (0x11070, 0x11070); (0x11073, 0x11074);
    (0x1107F, 0x11081); (0x110B3, 0x110B6); (0x110B9, 0x110BA); (0x110BD, 0x110BD);
    (0x110C2, 0x110C2); (0x110CD, 0x110CD); (0x11100, 0x11102); (0x11127, 0x1112B);
    (0x1112D, 0x11134); (0x11173, 0x11173); (0x11180, 0x11181); (0x111B6, 0x111BE);
    (0x111C9, 0x111CC); (0x111CF, 0x111CF); (0x1122F, 0x11231); (0x11234, 0x11234);
    (0x11236, 0x11237); (0x1123E, 0x1123E); (0x112DF, 0x112DF); (0x112E3, 0x112EA);
    (0x11300, 0x11301); (0x1133B, 0x1133C); (0x11340, 0x11340); (0x11366, 0x1136C);
    (0x11370, 0x11374); (0x11438, 0x1143F); (0x11442, 0x11444); (0x11446, 0x11446);
    (0x1145E, 0x1145E); (0x114B3, 0x114B8); (0x114BA, 0x114BA); (0x114BF, 0x114C0);
    (0x114C2, 0x114C3); (0x115B2, 0x115B5); (0x115BC, 0x115BD); (0x115BF, 0x115C0);
    (0x115DC, 0x115DD); (0x11633, 0x1163A); (0x1163D, 0x1163D); (0x1163F, 0x11640);
    (0x116AB, 0x116AB); (0x116AD, 0x116AD); (0x116B0, 0x116B5); (0x116B7, 0x116B7);
    (0x1171D, 0x1171F); (0x11722, 0x11725); (0x11727, 0x1172B); (0x1182F, 0x11837);
    (0x11839, 0x1183A); (0x1193B, 0x1193C); (0x1193E, 0x1193E); (0x11943, 0x11943);
    (0x119D4, 0x119D7); (0x119DA, 0x119DB); (0x119E0, 0x119E0); (0x11A01, 0x11A0A);
    (0x11A33, 0x11A38); (0x11A3B, 0x11A3E); (0x11A47, 0x11A47); (0x11A51, 0x11A56);
    (0x11A59, 0x11A5B); (0x11A8A, 0x11A96); (0x11A98, 0x11A99); (0x11C30, 0x11C36);
    (0x11C38, 0x11C3D); (0x11C3F, 0x11C3F); (0x11C92, 0x11CA7); (0x11CAA, 0x11CB0);
    (0x11CB2, 0x11CB3); (0x11CB5, 0x11CB6); (0x11D31, 0x11D36); (0x11D3A, 0x11D3A);
    (0x11D3C, 0x11D3D); (0x11D3F, 0x11D45); (0x11D47, 0x11D47); (0x11D90, 0x11D91);
    (0x11D95, 0x11D95); (0x11D97, 0x11D97); (0x11EF3, 0x11EF4); (0x13430, 0x13438);
    (0x16AF0, 0x16AF4); (0x16B30, 0x16B36); (0x16B40, 0x16B43); (0x16F4F, 0x16F4F);
    (0x16F8F, 0x16F9F); (0x16FE0, 0x16FE1); (0x16FE3, 0x16FE4); (0x1AFF0, 0x1AFF3);
    (0x1AFF5, 0x1AFFB); (0x1AFFD, 0x1AFFE); (0x1BC9D, 0x1BC9E); (0x1BCA0, 0x1BCA3);
    (0x1CF00, 0x1CF2D); (0x1CF30, 0x1CF46); (0x1D167, 0x1D169); (0x1D173, 0x1D182);
    (0x1D185, 0x1D18B); (0x1D1AA, 0x1D1AD); (0x1D242, 0x1D244); (0x1DA00, 0x1DA36);
    (0x1DA3B, 0x1DA6C); (0x1DA75, 0x1DA75); (0x1DA84, 0x1DA84); (0x1DA9B, 0x1DA9F);
    (0x1DAA1, 0x1DAAF); (0x1E000, 0x1E006); (0x1E008, 0x1E018); (0x1E01B, 0x1E021);
    (0x1E023, 0x1E024); (0x1E026, 0x1E02A); (0x1E130, 0x1E13D); (0x1E2AE, 0x1E2AE);
    (0x1E2EC, 0x1E2EF); (0x1E8D0, 0x1E8D6); (0x1E944, 0x1E94B); (0x1F3FB, 0x1F3FF);
    (0xE0001, 0xE0001); (0xE0020, 0xE007F); (0xE0100, 0xE01EF) ]%N.

(** The simple lower-case mappings: every [step]-th code point from
    [first] to [last] is mapped to its image, [first] to [image] and the
    others at the same distance. *)
Definition Lowercase_Mapping : list (N * N * N * N) :=
  [ (0x0041, 0x005A, 1, 0x0061); (0x00C0, 0x00D6, 1, 0x00E0);
    (0x00D8, 0x00DE, 1, 0x00F8); (0x0100, 0x012E, 2, 0x0101);
    (0x0132, 0x0136, 2, 0x0133); (0x0139, 0x0147, 2, 0x013A);
    (0x014A, 0x0176, 2, 0x014B); (0x0178, 0x0178, 1, 0x00FF);
    (0x0179, 0x017D, 2, 0x017A); (0x0181, 0x0181, 1, 0x0253);
    (0x0182, 0x0184, 2, 0x0183); (0x0186, 0x0186, 1, 0x0254);
    (0x0187, 0x0187, 1, 0x0188); (0x0189, 0x018A, 1, 0x0256);
    (0x018B, 0x018B, 1, 0x018C); (0x018E, 0x018E, 1, 0x01DD);
    (0x018F, 0x018F, 1, 0x0259); (0x0190, 0x0190, 1, 0x025B);
    (0x0191, 0x0191, 1, 0x0192); (0x0193, 0x0193, 1, 0x0260);
    (0x0194, 0x0194, 1, 0x0263); (0x0196, 0x0196, 1, 0x0269);
    (0x0197, 0x0197, 1, 0x0268); (0x0198, 0x0198, 1, 0x0199);
    (0x019C, 0x019C, 1, 0x026F); (0x019D, 0x019D, 1, 0x0272);
    (0x019F, 0x019F, 1, 0x0275); (0x01A0, 0x01A4, 2, 0x01A1);
    (0x01A6, 0x01A6, 1, 0x0280); (0x01A7, 0x01A7, 1, 0x01A8);
    (0x01A9, 0x01A9, 1, 0x0283); (0x01AC, 0x01AC, 1, 0x01AD);
    (0x01AE, 0x01AE, 1, 0x0288); (0x01AF, 0x01AF, 1, 0x01B0);
    (0x01B1, 0x01B2, 1, 0x028A); (0x01B3, 0x01B5, 2, 0x01B4);
    (0x01B7, 0x01B7, 1, 0x0292); (0x01B8, 0x01B8, 1, 0x01B9);
    (0x01BC, 0x01BC, 1, 0x01BD); (0x01C4, 0x01C4, 1, 0x01C6);
    (0x01C5, 0x01C5, 1, 0x01C6); (0x01C7, 0x01C7, 1, 0x01C9);
    (0x01C8, 0x01C8, 1, 0x01C9); (0x01CA, 0x01CA, 1, 0x01CC);
    (0x01CB, 0x01DB, 2, 0x01CC); (0x01DE, 0x01EE, 2, 0x01DF);
    (0x01F1, 0x01F1, 1, 0x01F3); (0x01F2, 0x01F4, 2, 0x01F3);
    (0x01F6, 0x01F6, 1, 0x0195); (0x01F7, 0x01F7, 1, 0x01BF);
    (0x01F8, 0x021E, 2, 0x01F9); (0x0220, 0x0220, 1, 0x019E);
    (0x0222, 0x0232, 2, 0x0223); (0x023A, 0x023A, 1, 0x2C65);
    (0x023B, 0x023B, 1, 0x023C); (0x023D, 0x023D, 1, 0x019A);
    (0x023E, 0x023E, 1, 0x2C66); (0x0241, 0x0241, 1, 0x0242);
    (0x0243, 0x0243, 1, 0x0180); (0x0244, 0x0244, 1, 0x0289);
    (0x0245, 0x0245, 1, 0x028C); (0x0246, 0x024E, 2, 0x0247);
    (0x0370, 0x0372, 2, 0x0371); (0x0376, 0x0376, 1, 0x0377);
    (0x037F, 0x037F, 1, 0x03F3); (0x0386, 0x0386, 1, 0x03AC);
    (0x0388, 0x038A, 1, 0x03AD); (0x038C, 0x038C, 1, 0x03CC);
    (0x038E, 0x038F, 1, 0x03CD); (0x0391, 0x03A1, 1, 0x03B1);
    (0x03A3, 0x03AB, 1, 0x03C3); (0x03CF, 0x03CF, 1, 0x03D7);
    (0x03D8, 0x03EE, 2, 0x03D9); (0x03F4, 0x03F4, 1, 0x03B8);
    (0x03F7, 0x03F7, 1, 0x03F8); (0x03F9, 0x03F9, 1, 0x03F2);
    (0x03FA, 0x03FA, 1, 0x03FB); (0x03FD, 0x03FF, 1, 0x037B);
    (0x0400, 0x040F, 1, 0x0450); (0x0410, 0x042F, 1, 0x0430);
    (0x0460, 0x0480, 2, 0x0461); (0x048A, 0x04BE, 2, 0x048B);
    (0x04C0, 0x04C0, 1, 0x04CF); (0x04C1, 0x04CD, 2, 0x04C2);
    (0x04D0, 0x052E, 2, 0x04D1); (0x0531, 0x0556, 1, 0x0561);
    (0x10A0, 0x10C5, 1, 0x2D00); (0x10C7, 0x10C7, 1, 0x2D27);
    (0x10CD, 0x10CD, 1, 0x2D2D); (0x13A0, 0x13EF, 1, 0xAB70);
    (0x13F0, 0x13F5, 1, 0x13F8); (0x1C90, 0x1CBA, 1, 0x10D0);
    (0x1CBD, 0x1CBF, 1, 0x10FD); (0x1E00, 0x1E94, 2, 0x1E01);
    (0x1E9E, 0x1E9E, 1, 0x00DF); (0x1EA0, 0x1EFE, 2, 0x1EA1);
    (0x1F08, 0x1F0F, 1, 0x1F00); (0x1F18, 0x1F1D, 1, 0x1F10);
    (0x1F28, 0x1F2F, 1, 0x1F20); (0x1F38, 0x1F3F, 1, 0x1F30);
    (0x1F48, 0x1F4D, 1, 0x1F40); (0x1F59, 0x1F5F, 2, 0x1F51);
    (0x1F68, 0x1F6F, 1, 0x1F60); (0x1F88, 0x1F8F, 1, 0x1F80);
    (0x1F98, 0x1F9F, 1, 0x1F90); (0x1FA8, 0x1FAF, 1, 0x1FA0);
    (0x1FB8, 0x1FB9, 1, 0x1FB0); (0x1FBA, 0x1FBB, 1, 0x1F70);
    (0x1FBC, 0x1FBC, 1, 0x1FB3); (0x1FC8, 0x1FCB, 1, 0x1F72);
    (0x1FCC, 0x1FCC, 1, 0x1FC3); (0x1FD8, 0x1FD9, 1, 0x1FD0);
    (0x1FDA, 0x1FDB, 1, 0x1F76); (0x1FE8, 0x1FE9, 1, 0x1FE0);
    (0x1FEA, 0x1FEB, 1, 0x1F7A); (0x1FEC, 0x1FEC, 1, 0x1FE5);
    (0x1FF8, 0x1FF9, 1, 0x1F78); (0x1FFA, 0x1FFB, 1, 0x1F7C);
    (0x1FFC, 0x1FFC, 1, 0x1FF3); (0x2126, 0x2126, 1, 0x03C9);
    (0x212A, 0x212A, 1, 0x006B); (0x212B, 0x212B, 1, 0x00E5);
    (0x2132, 0x2132, 1, 0x214E); (0x2160, 0x216F, 1, 0x2170);
    (0x2183, 0x2183, 1, 0x2184); (0x24B6, 0x24CF, 1, 0x24D0);
    (0x2C00, 0x2C2F, 1, 0x2C30); (0x2C60, 0x2C60, 1, 0x2C61);
    (0x2C62, 0x2C62, 1, 0x026B); (0x2C63, 0x2C63, 1, 0x1D7D);
    (0x2C64, 0x2C64, 1, 0x027D); (0x2C67, 0x2C6B, 2, 0x2C68);
    (0x2C6D, 0x2C6D, 1, 0x0251); (0x2C6E, 0x2C6E, 1, 0x0271);
    (0x2C6F, 0x2C6F, 1, 0x0250); (0x2C70, 0x2C70, 1, 0x0252);
    (0x2C72, 0x2C72, 1, 0x2C73); (0x2C75, 0x2C75, 1, 0x2C76);
    (0x2C7E, 0x2C7F, 1, 0x023F); (0x2C80, 0x2CE2, 2, 0x2C81);
    (0x2CEB, 0x2CED, 2, 0x2CEC); (0x2CF2, 0x2CF2, 1, 0x2CF3);
    (0xA640, 0xA66C, 2, 0xA641); (0xA680, 0xA69A, 2, 0xA681);
    (0xA722, 0xA72E, 2, 0xA723); (0xA732, 0xA76E, 2, 0xA733);
    (0xA779, 0xA77B, 2, 0xA77A); (0xA77D, 0xA77D, 1, 0x1D79);
    (0xA77E, 0xA786, 2, 0xA77F); (0xA78B, 0xA78B, 1, 0xA78C);
    (0xA78D, 0xA78D, 1, 0x0265); (0xA790, 0xA792, 2, 0xA791);
    (0xA796, 0xA7A8, 2, 0xA797); (0xA7AA, 0xA7AA, 1, 0x0266);
    (0xA7AB, 0xA7AB, 1, 0x025C); (0xA7AC, 0xA7AC, 1, 0x0261);
    (0xA7AD, 0xA7AD, 1, 0x026C); (0xA7AE, 0xA7AE, 1, 0x026A);
    (0xA7B0, 0xA7B0, 1, 0x029E); (0xA7B1, 0xA7B1, 1, 0x0287);
    (0xA7B2, 0xA7B2, 1, 0x029D); (0xA7B3, 0xA7B3, 1, 0xAB53);
    (0xA7B4, 0xA7C2, 2, 0xA7B5); (0xA7C4, 0xA7C4, 1, 0xA794);
    (0xA7C5, 0xA7C5, 1, 0x0282); (0xA7C6, 0xA7C6, 1, 0x1D8E);
    (0xA7C7, 0xA7C9, 2, 0xA7C8); (0xA7D0, 0xA7D0, 1, 0xA7D1);
    (0xA7D6, 0xA7D8, 2, 0xA7D7); (0xA7F5, 0xA7F5, 1, 0xA7F6);
    (0xFF21, 0xFF3A, 1, 0xFF41); (0x10400, 0x10427, 1, 0x10428);
    (0x104B0, 0x104D3, 1, 0x104D8); (0x10570, 0x1057A, 1, 0x10597);
    (0x1057C, 0x1058A, 1, 0x105A3); (0x1058C, 0x10592, 1, 0x105B3);
    (0x10594, 0x10595, 1, 0x105BB); (0x10C80, 0x10CB2, 1, 0x10CC0);
    (0x118A0, 0x118BF, 1, 0x118C0); (0x16E40, 0x16E5F, 1, 0x16E60);
    (0x1E900, 0x1E921, 1, 0x1E922) ]%N.

(** [a-z], [A-Z], [0-9] *)
Definition ascii_lower (c : N) : bool := ((0x61 <=? c) && (c <=? 0x7A))%N.
Definition ascii_upper (c : N) : bool := ((0x41 <=? c) && (c <=? 0x5A))%N.
Definition ascii_digit (c : N) : bool := ((0x30 <=? c) && (c <=? 0x39))%N.

(** [A-Za-z0-9] *)
Definition ascii_alnum (c : N) : bool :=
  ascii_lower c || ascii_upper c || ascii_digit c.

(** The class [[a-z0-9]] of [clean_text]. *)
Definition lower_alnum (c : N) : bool := ascii_lower c || ascii_digit c.

Definition isspace (c : N) : bool := in_ranges c White_Space.
Definition cased (c : N) : bool := in_ranges c Cased.
Definition case_ignorable (c : N) : bool := in_ranges c Case_Ignorable.

Definition maps (c : N) (m : N * N * N * N) : bool :=
  let '(first, last, step, _) := m in
  ((first <=? c) && (c <=? last) && ((c - first) mod step =? 0))%N.

(** The lower-case form of one code point.  U+0130, capital I with dot
    above, is the one code point with a lower-case form of two code
    points: i and the combining dot above. *)
Definition to_lower (c : N) : list N :=
  if (c =? 0x130)%N then [0x69; 0x307]%N
  else match find (maps c) Lowercase_Mapping with
       | Some (first, _, _, image) => [image + (c - first)]%N
       | None => [c]
       end.

Fixpoint skip_ignorable (s : list N) : list N :=
  match s with
  | [] => []
  | c :: s' => if case_ignorable c then skip_ignorable s' else s
  end.

(** The capital sigma U+03A3 becomes the final sigma U+03C2 when the
    nearest code point before it that is not case-ignorable is cased and
    the nearest one after it is not.  [before] is the text before the
    sigma, last code point first. *)
Definition final_sigma (before after : list N) : bool :=
  match skip_ignorable before with
  | [] => false
  | c :: _ =>
      if cased c then
        match skip_ignorable after with
        | [] => true
        | c' :: _ => negb (cased c')
        end
      else false
  end.

Fixpoint lower_go (before s : list N) : list N :=
  match s with
  | [] => []
  | c :: s' =>
      (if (c =? 0x3A3)%N
       then [if final_sigma before s' then 0x3C2 else 0x3C3]%N
       else to_lower c)
      ++ lower_go (c :: before) s'
  end.

(** [str.lower] *)
Definition lower (s : list N) : list N := lower_go [] s.

(** [re.sub(r'[^a-z0-9\s]', ' ', text)] *)
Definition sub_special (text : list N) : list N :=
  (λ c, if lower_alnum c || isspace c then c else 0x20%N) <$> text.

Definition flush (cur : list N) : list (list N) :=
  match cur with [] => [] | _ => [cur] end.

Fixpoint split_go (cur s : list N) : list (list N) :=
  match s with
  | [] => flush cur
  | c :: s' =>
      if isspace c then flush cur ++ split_go [] s'
      else split_go (cur ++ [c]) s'
  end.

(** [str.split()] *)
Definition split (s : list N) : list (list N) := split_go [] s.

(** [clean_text] *)
Definition clean_text (text : list N) : list (list N) :=
  let text := lower text in
  let text := sub_special text in
  filter (λ w, 2 < length w) (split text).

(** A text of code points below U+0100, as a text of this module. *)
Definition of_string (s : string) : list N :=
  Chr.code <$> list_ascii_of_string s.

(** A token: more than 2 code points, each one of [[a-z0-9]]. *)
Definition token (w : list N) : Prop :=
  2 < length w ∧ Forall (λ c, lower_alnum c = true) w.

End Uni.

(** ** Regular expressions

    The fragment of [re] pattern syntax that [check_formatting_rules]
    uses, and [re.search] on it.  [bool(re.search(p, text))] asks whether
    some match exists; the backtracking matcher below tries every way to
    match, greedy choice first, as [re] does. *)

Module Re.

Inductive t : Type :=
| Eps                                                 (* the empty pattern *)
| Bnd                                                 (* [\b] *)
| Cls (p : ascii → bool)                              (* one character of a class *)
| Rep (p : ascii → bool) (lo : nat) (hi : option nat) (* a class repeated [{lo,hi}] *)
| Seq (r1 r2 : t)                                     (* [r1 r2] *)
| Alt (r1 r2 : t).                                    (* [r1|r2] *)

(** A literal character; under [re.IGNORECASE] it matches whatever
    lower-cases to the same character. *)
Definition chr (c : ascii) : t := Cls (λ x, bool_decide (x = c)).
Definition chri (c : ascii) : t :=
  Cls (λ x, bool_decide (Chr.lower x = Chr.lower c)).

(** [p+], [p?], [p{n}], [p{lo,hi}] *)
Definition plus (p : ascii → bool) : t := Rep p 1 None.
Definition opt (p : ascii → bool) : t := Rep p 0 (Some 1).
Definition times (p : ascii → bool) (n : nat) : t := Rep p n (Some n).
Definition range (p : ascii → bool) (lo hi : nat) : t := Rep p lo (Some hi).

(** Concatenation and alternation of several patterns. *)
Definition cat (rs : list t) : t := foldr Seq Eps rs.

Fixpoint any_of (rs : list t) : t :=
  match rs with
  | [] => Cls (λ _, false)
  | [r] => r
  | r :: rs' => Alt r (any_of rs')
  end.

(** A literal word under [re.IGNORECASE]. *)
Fixpoint liti (s : string) : t :=
  match s with
  | EmptyString => Eps
  | String c s' => Seq (chri c) (liti s')
  end.

(** The character before the current position is [prev] and the text from
    the current position on is [s]: [\b] holds when exactly one of the two
    neighbours is a word character. *)
Definition is_word (o : option ascii) : bool :=
  match o with
  | Some c => Chr.word c
  | None => false
  end.

Definition first_chr (s : string) : option ascii :=
  match s with
  | EmptyString => None
  | String c _ => Some c
  end.

Definition boundary (prev : option ascii) (s : string) : bool :=
  xorb (is_word prev) (is_word (first_chr s)).

Definition room (hi : option nat) : bool :=
  match hi with
  | Some O => false
  | _ => true
  end.

(** [p{lo,hi}] from the current position, then the continuation [k]:
    one more character first, the continuation once [lo] is reached. *)
Fixpoint rep (p : ascii → bool) (lo : nat) (hi : option nat)
    (prev : option ascii) (s : string)
    (k : option ascii → string → bool) {struct s} : bool :=
  let more :=
    match s with
    | String c s' =>
        if room hi && p c then rep p (pred lo) (pred <$> hi) (Some c) s' k
        else false
    | EmptyString => false
    end in
  match lo with
  | O => if more then true else k prev s
  | S _ => more
  end.

(** [run r prev s k]: [r] matches a prefix of [s] and [k] accepts what
    follows. *)
Fixpoint run (r : t) (prev : option ascii) (s : string)
    (k : option ascii → string → bool) : bool :=
  match r with
  | Eps => k prev s
  | Bnd => if boundary prev s then k prev s else false
  | Cls p =>
      match s with
      | String c s' => if p c then k (Some c) s' else false
      | EmptyString => false
      end
  | Rep p lo hi => rep p lo hi prev s k
  | Seq r1 r2 => run r1 prev s (λ prev' s', run r2 prev' s' k)
  | Alt r1 r2 => if run r1 prev s k then true else run r2 prev s k
  end.

(** A match starting at the current position, or at a later one. *)
Fixpoint search_from (r : t) (prev : option ascii) (s : string) : bool :=
  if run r prev s (λ _ _, true) then true
  else match s with
       | String c s' => search_from r (Some c) s'
       | EmptyString => false
       end.

(** [bool(re.search(r, text))] *)
Definition search (r : t) (text : string) : bool := search_from r None text.

(** What a match is.  [matches r prev w rest]: [r] matches exactly the
    text [w], where the character before [w] is [prev] and the text after
    it is [rest]. *)
Fixpoint last_chr (prev : option ascii) (w : string) : option ascii :=
  match w with
  | EmptyString => prev
  | String c w' => last_chr (Some c) w'
  end.

Definition within (hi : option nat) (n : nat) : Prop :=
  match hi with
  | Some h => n ≤ h
  | None => True
  end.

Fixpoint matches (r : t) (prev : option ascii) (w rest : string) : Prop :=
  match r with
  | Eps => w = EmptyString
  | Bnd => w = EmptyString ∧ boundary prev rest = true
  | Cls p => ∃ c, w = String c EmptyString ∧ p c = true
  | Rep p lo hi =>
      Str.all p w = true ∧ lo ≤ String.length w ∧ within hi (String.length w)
  | Seq r1 r2 =>
      ∃ w1 w2, w = w1 +:+ w2 ∧ matches r1 prev w1 (w2 +:+ rest)
               ∧ matches r2 (last_chr prev w1) w2 rest
  | Alt r1 r2 => matches r1 prev w rest ∨ matches r2 prev w rest
  end.

End Re.

(** ** Formatting checks *)

Record FormatCheck := {
  label : string;
  pass : bool;
  msgFail : string
}.

(** The class [[\w\.-]] *)
Definition word_dot_dash (c : ascii) : bool :=
  Chr.word c || bool_decide (c = "."%char) || bool_decide (c = "-"%char).

(** The class [[-.\s]] *)
Definition dash_dot_space (c : ascii) : bool :=
  bool_decide (c = "-"%char) || bool_decide (c = "."%char) || Chr.isspace c.

Definition is_chr (c : ascii) : ascii → bool := λ x, bool_decide (x = c).

(** [\b[\w\.-]+@[\w\.-]+\.\w{2,4}\b] *)
Definition email_re : Re.t :=
  Re.cat [ Re.Bnd; Re.plus word_dot_dash; Re.chr "@"; Re.plus word_dot_dash;
           Re.chr "."; Re.range Chr.word 2 4; Re.Bnd ].

(** [\(?\d{3}\)?[-.\s]?\d{3}[-.\s]?\d{4}] *)
Definition phone_re : Re.t :=
  Re.cat [ Re.opt (is_chr "("); Re.times Chr.digit 3; Re.opt (is_chr ")");
           Re.opt dash_dot_space; Re.times Chr.digit 3;
           Re.opt dash_dot_space; Re.times Chr.digit 4 ].

(** [\b(led|managed|developed|created|built|designed|improved|optimized|engineered|architected)\b]
    with [re.IGNORECASE] *)
Definition verbs_re : Re.t :=
  Re.cat [ Re.Bnd;
           Re.any_of (Re.liti <$>
             [ "led"; "managed"; "developed"; "created"; "built"; "designed";
               "improved"; "optimized"; "engineered"; "architected" ]);
           Re.Bnd ].

(** [\d+%|\$\d+] *)
Definition metrics_re1 : Re.t :=
  Re.Alt (Re.cat [ Re.plus Chr.digit; Re.chr "%" ])
         (Re.cat [ Re.chr "$"; Re.plus Chr.digit ]).

(** [\b\d+\s+(users|clients|percent|increase|reduction)] with
    [re.IGNORECASE] *)
Definition metrics_re2 : Re.t :=
  Re.cat [ Re.Bnd; Re.plus Chr.digit; Re.plus Chr.isspace;
           Re.any_of (Re.liti <$>
             [ "users"; "clients"; "percent"; "increase"; "reduction" ]) ].

Definition has_email (text : string) : bool := Re.search email_re text.
Definition has_phone (text : string) : bool := Re.search phone_re text.
Definition has_verbs (text : string) : bool := Re.search verbs_re text.
Definition has_metrics (text : string) : bool :=
  Re.search metrics_re1 text || Re.search metrics_re2 text.

Definition check_formatting_rules (text : string) : list FormatCheck :=
  let checks := [] in
  (* Check 1: Email *)
  let checks := checks ++ [ {| label := "Contact Email";
                               pass := has_email text;
                               msgFail := "No email detected" |} ] in
  (* Check 2: Phone *)
  let checks := checks ++ [ {| label := "Phone Number";
                               pass := has_phone text;
                               msgFail := "No phone number" |} ] in
  (* Check 3: Action Verbs *)
  let checks := checks ++ [ {| label := "Action Verbs";
                               pass := has_verbs text;
                               msgFail := "Add verbs like 'Managed'" |} ] in
  (* Check 4: Metrics *)
  let checks := checks ++ [ {| label := "Metrics/Numbers";
                               pass := has_metrics text;
                               msgFail := "Include measurable achievements (e.g., '20%')" |} ] in
  (* Check 5: Formatting (mock check) *)
  let checks := checks ++ [ {| label := "Consistent Formatting";
                               pass := true;
                               msgFail := "Ensure uniform font and style" |} ] in
  (* Check 6: Typos (mock check) *)
  let checks := checks ++ [ {| label := "No Typos";
                               pass := true;
                               msgFail := "Proofread for spelling errors" |} ] in
  checks.

(** ** Optimization tips *)

Definition generate_optimization_tips (score : Z) (missing_keywords : list string)
    : list string :=
  let tips := [] in
  let tips :=
    if decide (score < 50)%Z then
      tips ++ ["Your resume needs significant alignment with the job description."]
    else if decide (score < 80)%Z then
      tips ++ ["You're close! focus on adding specific technical keywords."]
    else
      tips ++ ["Great match! Focus on readability and formatting now."] in
  let tips :=
    match missing_keywords with
    | [] => tips
    | _ => tips ++ [ "Try to weave in these top missing keywords: "
                     +:+ Str.join ", " (take 3 missing_keywords) +:+ "." ]
    end in
  let tips := tips ++ ["Ensure you use 'Action Verbs' at the start of every bullet point."] in
  let tips := tips ++ ["Quantify your experience with numbers (e.g., 'Reduced latency by 20%')."] in
  tips.

(** ** Frequency counting

    [collections.Counter] is a dictionary and keeps its keys in the order
    they were first inserted: an association list in first-seen order. *)

Abbreviation counter := (list (string * nat)).

(** [c[elem] = c.get(elem, 0) + 1] *)
Fixpoint counter_incr (elem : string) (c : counter) : counter :=
  match c with
  | [] => [(elem, 1)]
  | (k, n) :: c' =>
      if decide (k = elem) then (k, S n) :: c' else (k, n) :: counter_incr elem c'
  end.

(** [Counter(iterable)] *)
Definition Counter (iterable : list string) : counter :=
  foldl (λ c elem, counter_incr elem c) [] iterable.

(** [sorted(c.items(), key=itemgetter(1), reverse=True)]: a stable sort,
    items of equal count keep the order they have in [c].  [insert_desc x l]
    places [x], which comes before every item of [l] in [c], in front of
    the first item whose count is not larger. *)
Fixpoint insert_desc (x : string * nat) (l : counter) : counter :=
  match l with
  | [] => [x]
  | y :: l' => if decide (y.2 ≤ x.2) then x :: y :: l' else y :: insert_desc x l'
  end.

Definition sorted_desc (c : counter) : counter := foldr insert_desc [] c.

(** [c.most_common(n)], which is [heapq.nlargest(n, c.items(), key=itemgetter(1))]:
    the first [n] items of the stable descending sort. *)
Definition most_common (n : nat) (c : counter) : counter := take n (sorted_desc c).

(** ** Binary64 arithmetic

    [len(found) / total_keywords] is Python's true division and yields a
    [float]; the score is computed on IEEE 754 binary64 values. *)

Module F64.

Definition prec : Z := 53.
Definition emax : Z := 1024.

(** [float(n)] for a natural number [n], rounded to nearest even. *)
Definition of_nat (n : nat) : spec_float :=
  binary_normalize prec emax (Z.of_nat n) 0 false.

Definition div (x y : spec_float) : spec_float := SFdiv prec emax x y.
Definition mul (x y : spec_float) : spec_float := SFmul prec emax x y.

(** [int(x)]: truncation toward zero; an error on infinities and NaN. *)
Definition to_int (x : spec_float) : option Z :=
  match x with
  | S754_zero _ => Some 0%Z
  | S754_finite s m e =>
      let a := match e with
               | Z0 => Zpos m
               | Zpos p => Z.shiftl (Zpos m) (Zpos p)
               | Zneg p => Z.shiftr (Zpos m) (Zpos p)
               end in
      Some (if s then - a else a)%Z
  | S754_infinity _ => None
  | S754_nan => None
  end.

End F64.

(** ** The analysis *)

(** Step 2 of [analyze]: the target keywords of a tokenized job description. *)
Definition select_target_keywords (jd_words : list string) : gset string :=
  let jd_counter := Counter (filter (λ w, w ∉ COMMON_STOP_WORDS) jd_words) in
  let target_keywords : gset string := ∅ in
  (* Add known skills found in JD *)
  let target_keywords :=
    foldl (λ (T : gset string) word,
             if decide (word ∈ TECH_SKILLS) then T ∪ {[word]} else T)
          target_keywords jd_words in
  (* Add top frequency words from JD if we don't have enough skills *)
  if decide (size target_keywords < 5) then
    let most_common := (most_common 10 jd_counter).*1 in
    target_keywords ∪ list_to_set most_common
  else target_keywords.

(** Step 3 of [analyze]: the loop over [target_keywords], a list by then. *)
Definition match_keywords (resume_set : gset string) (raw_resume_lower : string)
    (target_keywords : list string) : list string * list string :=
  foldl (λ '(found, missing) k,
           if bool_decide (k ∈ resume_set) || Str.contains k raw_resume_lower
           then (found ++ [k], missing)
           else (found, missing ++ [k]))
        ([], []) target_keywords.

(** Step 4 of [analyze]: [int((len(found) / total_keywords) * 100)].  The
    result is [None] where [int] would raise. *)
Definition calculate_score (n_found total_keywords : nat) : option Z :=
  if decide (total_keywords = 0) then Some 0%Z
  else F64.to_int (F64.mul (F64.div (F64.of_nat n_found) (F64.of_nat total_keywords))
                           (F64.of_nat 100)).

Record Response := {
  score : Z;
  found_keywords : list string;
  missing_keywords : list string;
  hard_skills_count : nat;
  soft_skills_count : nat;
  format_checks : list FormatCheck;
  tips : list string
}.

Inductive Outcome :=
| Ok (r : Response)          (* the JSON response, status 200 *)
| BadRequest (error : string) (* [{'error': ...}], status 400 *)
| ServerError.               (* an uncaught exception *)

(** Steps 3 to 7 of [analyze], from the list [list(target_keywords)] on. *)
Definition analyze_targets (resume_text : string) (target_keywords : list string)
    : Outcome :=
  let resume_words := clean_text resume_text in
  let resume_set : gset string := list_to_set resume_words in
  let raw_resume_lower := Str.lower resume_text in
  let '(found, missing) := match_keywords resume_set raw_resume_lower target_keywords in
  let total_keywords := length target_keywords in
  match calculate_score (length found) total_keywords with
  | None => ServerError
  | Some score =>
      let format_checks := check_formatting_rules resume_text in
      let tips := generate_optimization_tips score missing in
      Ok {| score := score;
            found_keywords := found;
            missing_keywords := missing;
            hard_skills_count := length (filter (λ k, k ∉ SOFT_SKILLS) found);
            soft_skills_count := length (filter (λ k, k ∈ SOFT_SKILLS) found);
            format_checks := format_checks;
            tips := tips |}
  end.

(** [analyze] on two fields that are strings.  The order in which
    [list(target_keywords)] enumerates the set is not fixed by Python;
    [order] is that enumeration. *)
Definition analyze (order : gset string → list string)
    (resume_text jd_text : string) : Outcome :=
  if bool_decide (resume_text = "") || bool_decide (jd_text = "") then
    BadRequest "Both fields are required"
  else
    let jd_words := clean_text jd_text in
    analyze_targets resume_text (order (select_target_keywords jd_words)).

(** ** The request

    [request.json] is the parsed body of the request.  A request whose body
    does not parse, or is not sent as JSON, ends at [request.json] with an
    HTTP error of Flask's own; what follows starts from a parsed body. *)

(** A parsed JSON body, as [request.json] hands it to [analyze]. *)
Inductive Json :=
| JNull
| JBool (b : bool)
| JInt (n : Z)
| JFloat (x : spec_float)
| JStr (s : string)
| JArr (items : list Json)
| JObj (members : list (string * Json)).

(** The truth value of a Python object: [None], [False], zero, the empty
    string, the empty list and the empty dict are false. *)
Definition truthy (v : Json) : bool :=
  match v with
  | JNull => false
  | JBool b => b
  | JInt n => negb (n =? 0)%Z
  | JFloat x => match x with S754_zero _ => false | _ => true end
  | JStr s => negb (bool_decide (s = ""))
  | JArr items => match items with [] => false | _ => true end
  | JObj members => match members with [] => false | _ => true end
  end.

(** [d.get(key, default)] on the dict built from the members of a JSON
    object in the order of the document: a later member replaces an
    earlier one of the same name. *)
Fixpoint dict_get (key : string) (members : list (string * Json)) (default : Json)
    : Json :=
  match members with
  | [] => default
  | (k, v) :: members' =>
      dict_get key members' (if bool_decide (k = key) then v else default)
  end.

(** The route [analyze] on a parsed body.  A body that is not an object
    has no [get], and a value that is not a string has no [lower]: both
    raise [AttributeError], which nothing catches. *)
Definition analyze_request (order : gset string → list string) (data : Json)
    : Outcome :=
  match data with
  | JObj members =>
      let resume_text := dict_get "resume_text" members (JStr "") in
      let jd_text := dict_get "jd_text" members (JStr "") in
      if negb (truthy resume_text) || negb (truthy jd_text) then
        BadRequest "Both fields are required"
      else
        match resume_text, jd_text with
        | JStr resume_text, JStr jd_text => analyze order resume_text jd_text
        | _, _ => ServerError
        end
  | _ => ServerError
  end.

(** * Vocabulary of the properties *)

(** [k in s] holds exactly when [s] is [pre + k + post] for some [pre], [post]. *)
Definition substring (k s : string) : Prop := ∃ pre post, s = pre +:+ k +:+ post.

Definition token (w : string) : Prop :=
  Str.all Chr.lower_alnum w = true ∧ 2 < String.length w.

(** The test of the matching loop. *)
Definition hit (resume_set : gset string) (raw_resume_lower k : string) : bool :=
  bool_decide (k ∈ resume_set) || Str.contains k raw_resume_lower.

(** The skills of the job description, and the words [most_common(10)]
    returns for it. *)
Definition jd_skills (jd_words : list string) : gset string :=
  list_to_set (filter (λ w, w ∈ TECH_SKILLS) jd_words).

Definition jd_candidates (jd_words : list string) : list string :=
  filter (λ w, w ∉ COMMON_STOP_WORDS) jd_words.

Definition jd_top (jd_words : list string) : list string :=
  (most_common 10 (Counter (jd_candidates jd_words))).*1.

(** [targets] is [list(target_keywords)] for the job description [jd_text]:
    the derived target keyword set, in whatever order the set is
    enumerated. *)
Definition derived_targets (jd_text : string) (targets : list string) : Prop :=
  targets ≡ₚ elements (select_target_keywords (clean_text jd_text)).

Definition score_exact (n_found total : nat) : bool :=
  bool_decide (calculate_score n_found total
               = Some (100 * Z.of_nat n_found ÷ Z.of_nat total)%Z).

(** How often [w] occurs in [ws], and where it occurs first. *)
Definition occurrences (w : string) (ws : list string) : nat :=
  length (filter (λ x, x = w) ws).

Fixpoint first_index (w : string) (ws : list string) : nat :=
  match ws with
  | [] => 0
  | x :: ws' => if decide (x = w) then 0 else S (first_index w ws')
  end.

(** [a] ranks before [b]: it is more frequent, or as frequent and seen
    first. *)
Definition ranks_before (ws : list string) (a b : string) : Prop :=
  occurrences b ws < occurrences a ws
  ∨ (occurrences a ws = occurrences b ws ∧ first_index a ws < first_index b ws).

(** The order of the stable descending sort, on items. *)
Definition item_before (ws : list string) (x y : string * nat) : Prop :=
  y.2 < x.2 ∨ (x.2 = y.2 ∧ first_index x.1 ws < first_index y.1 ws).

(** The candidates of a job description, ranked. *)
Definition jd_ranking (jd_words : list string) : list string :=
  (sorted_desc (Counter (jd_candidates jd_words))).*1.

(** The entries of [TECH_SKILLS] that no text tokenizes to. *)
Definition untokenizable_skills : list string :=
  [ "machine learning"; "data analysis"; "design patterns"; "ci/cd"; "c++";
    "c#"; "go" ].

(** Where the e-mail pattern of [check_formatting_rules] matches: a local
    part that starts at a word boundary, [@], a domain, a dot, and 2 to 4
    word characters that no word character follows. *)
Definition email_at (pre loc domain tld post : string) : Prop :=
  Re.boundary (Re.last_chr None pre) loc = true
  ∧ loc ≠ "" ∧ Str.all word_dot_dash loc = true
  ∧ domain ≠ "" ∧ Str.all word_dot_dash domain = true
  ∧ 2 ≤ String.length tld ≤ 4 ∧ Str.all Chr.word tld = true
  ∧ Re.is_word (Re.first_chr post) = false.

(** The pattern as the specification words it: local part, [@], domain,
    a dot, and a top-level domain of 2 to 4 letters, anywhere in the text. *)
Definition claimed_email (text : string) : Prop :=
  ∃ pre loc domain tld post,
    text = pre +:+ loc +:+ "@" +:+ domain +:+ "." +:+ tld +:+ post
    ∧ loc ≠ "" ∧ Str.all word_dot_dash loc = true
    ∧ domain ≠ "" ∧ Str.all word_dot_dash domain = true
    ∧ 2 ≤ String.length tld ≤ 4 ∧ Str.all Chr.alpha tld = true.

(** The worded pattern is itself a pattern, so [Re.search] decides it. *)
Definition claimed_email_re : Re.t :=
  Re.cat [ Re.plus word_dot_dash; Re.chr "@"; Re.plus word_dot_dash;
           Re.chr "."; Re.range Chr.alpha 2 4 ].

Definition tip_low : string :=
  "Your resume needs significant alignment with the job description.".
Definition tip_mid : string :=
  "You're close! focus on adding specific technical keywords.".
Definition tip_high : string :=
  "Great match! Focus on readability and formatting now.".
Definition tip_verbs : string :=
  "Ensure you use 'Action Verbs' at the start of every bullet point.".
Definition tip_numbers : string :=
  "Quantify your experience with numbers (e.g., 'Reduced latency by 20%').".

(** ** Vocabulary of the further properties *)

(** [order] enumerates every set: [list(s)] lists the elements of [s],
    each once, in some order. *)
Definition enumerates (order : gset string → list string) : Prop :=
  ∀ S, order S ≡ₚ elements S.

(** The entries of [TECH_SKILLS] that are tokens. *)
Definition token_skills : list string :=
  List.filter (λ k, Str.all Chr.lower_alnum k && (2 <? String.length k))
              TECH_SKILLS_list.

(** The verbs of the Action Verbs check and the units of the Metrics
    check, as written in the patterns. *)
Definition action_verbs : list string :=
  [ "led"; "managed"; "developed"; "created"; "built"; "designed"; "improved";
    "optimized"; "engineered"; "architected" ].

Definition metric_units : list string :=
  [ "users"; "clients"; "percent"; "increase"; "reduction" ].

(** Exactly [n] decimal digits. *)
Definition digits (n : nat) (s : string) : Prop :=
  String.length s = n ∧ Str.all Chr.digit s = true.

(** Nothing, or one character of the class [p]. *)
Definition optional (p : ascii → bool) (s : string) : Prop :=
  String.length s ≤ 1 ∧ Str.all p s = true.

(** Where the phone pattern matches: an optional opening parenthesis, 3
    digits, an optional closing parenthesis, an optional separator, 3
    digits, an optional separator, 4 digits. *)
Definition phone_at (op area cl sep1 mid sep2 last : string) : Prop :=
  optional (is_chr "(") op ∧ digits 3 area ∧ optional (is_chr ")") cl
  ∧ optional dash_dot_space sep1 ∧ digits 3 mid
  ∧ optional dash_dot_space sep2 ∧ digits 4 last.

(** Every character class of the pattern gives the same answer on a
    character and on its lower-case form. *)
Fixpoint lower_invariant (r : Re.t) : Prop :=
  match r with
  | Re.Eps | Re.Bnd => True
  | Re.Cls p | Re.Rep p _ _ => ∀ c, p (Chr.lower c) = p c
  | Re.Seq r1 r2 | Re.Alt r1 r2 => lower_invariant r1 ∧ lower_invariant r2
  end.

(** [field key data v]: the body [data] is an object, and [v] is what
    [data.get(key, '')] returns. *)
Definition field (key : string) (data : Json) (v : Json) : Prop :=
  ∃ members, data = JObj members ∧ dict_get key members (JStr "") = v.

Definition is_str (v : Json) : Prop := ∃ s, v = JStr s.

(** The tip that names missing keywords. *)
Definition tip_missing (keywords : list string) : string :=
  "Try to weave in these top missing keywords: "
  +:+ Str.join ", " keywords +:+ ".".

(** * Properties *)

(** ** The model at work *)

Example clean_text_example :
  clean_text "We need a Python dev, 5+ years; C++/CI-CD & Go!"
  = ["need"; "python"; "dev"; "years"].
Proof. vm_compute. reflexivity. Qed.

(** ["ΟΔΟΣ İ"] in lower case: the last sigma is final, and the dotted
    capital I becomes two code points. *)
Example lower_example :
  Uni.lower [0x39F; 0x394; 0x39F; 0x3A3; 0x20; 0x130]%N
  = [0x3BF; 0x3B4; 0x3BF; 0x3C2; 0x20; 0x69; 0x307]%N.
Proof. vm_compute. reflexivity. Qed.

(** ["Kelvin İstanbul café"], with the Kelvin sign for its first letter. *)
Example clean_text_unicode_example :
  Uni.clean_text
    ([0x212A] ++ Uni.of_string "elvin " ++ [0x130] ++ Uni.of_string "stanbul caf"
     ++ [0xE9])%N
  = Uni.of_string <$> ["kelvin"; "stanbul"; "caf"].
Proof. vm_compute. reflexivity. Qed.

Example check_formatting_rules_example :
  pass <$> check_formatting_rules "Jane jane@example.com 555-123-4567 Led 20 users"
  = [true; true; true; true; true; true].
Proof. vm_compute. reflexivity. Qed.

Example check_formatting_rules_example_fail :
  pass <$> check_formatting_rules "no contact data, no figures"
  = [false; false; false; false; true; true].
Proof. vm_compute. reflexivity. Qed.

Example most_common_example :
  most_common 2 (Counter ["java"; "rust"; "linux"; "rust"; "linux"; "bash"])
  = [("rust", 2); ("linux", 2)].
Proof. vm_compute. reflexivity. Qed.

Example generate_optimization_tips_example :
  generate_optimization_tips 30 ["docker"; "aws"]
  = [ "Your resume needs significant alignment with the job description.";
      "Try to weave in these top missing keywords: docker, aws.";
      "Ensure you use 'Action Verbs' at the start of every bullet point.";
      "Quantify your experience with numbers (e.g., 'Reduced latency by 20%')." ].
Proof. vm_compute. reflexivity. Qed.

Example analyze_example :
  match analyze elements
          "Built React apps using Python. Led team communication."
          "Python, React, communication" with
  | Ok r => score r = 100%Z ∧ missing_keywords r = []
            ∧ hard_skills_count r = 2 ∧ soft_skills_count r = 1
  | _ => False
  end.
Proof. vm_compute. done. Qed.

Example analyze_example_empty :
  analyze elements "" "Python" = BadRequest "Both fields are required".
Proof. reflexivity. Qed.

Example analyze_request_example_missing :
  analyze_request elements (JObj [("jd_text", JStr "Python")])
  = BadRequest "Both fields are required".
Proof. reflexivity. Qed.

Example analyze_request_example_number :
  analyze_request elements (JObj [("resume_text", JInt 5); ("jd_text", JStr "Python")])
  = ServerError.
Proof. reflexivity. Qed.

(** ** Characters *)

(** A fact about all 256 characters, by running through them. *)
Ltac each_chr c :=
  destruct c as [[] [] [] [] [] [] [] []]; vm_compute; try reflexivity;
  try discriminate; auto.

Lemma lower_alnum_of_lower (c : ascii) :
  Chr.lower_alnum (Chr.lower c) = Chr.ascii_alnum c.
Proof. each_chr c. Qed.

Lemma lower_fixes_lower_alnum (c : ascii) :
  Chr.lower_alnum c = true → Chr.lower c = c.
Proof. each_chr c. Qed.

(** ** Strings *)

Lemma app_empty_r (s : string) : s +:+ "" = s.
Proof. induction s; simpl; congruence. Qed.

Lemma app_assoc_s (a b c : string) : (a +:+ b) +:+ c = a +:+ (b +:+ c).
Proof. induction a; simpl; congruence. Qed.

Lemma all_app (p : ascii → bool) (a b : string) :
  Str.all p (a +:+ b) = Str.all p a && Str.all p b.
Proof. induction a as [|c a IH]; simpl; [done|]. rewrite IH. by destruct (p c). Qed.

Lemma lower_app (a b : string) : Str.lower (a +:+ b) = Str.lower a +:+ Str.lower b.
Proof. induction a; simpl; congruence. Qed.

Lemma lower_fixes_tokens (w : string) :
  Str.all Chr.lower_alnum w = true → Str.lower w = w.
Proof.
  induction w as [|c w IH]; simpl; [done|].
  intros [Hc Hw]%andb_true_iff. by rewrite lower_fixes_lower_alnum, IH.
Qed.

Lemma startswith_spec (k s : string) :
  Str.startswith k s = true ↔ ∃ post, s = k +:+ post.
Proof.
  revert s. induction k as [|a k IH]; intros s; simpl.
  - split; [eauto|done].
  - destruct s as [|b s].
    + split; [done|]. by intros [post ?].
    + destruct (decide (a = b)) as [->|Hne].
      * rewrite IH. split; intros [post Hp]; exists post; congruence.
      * split; [done|]. intros [post ?]. congruence.
Qed.

Lemma contains_spec (k s : string) : Str.contains k s = true ↔ substring k s.
Proof.
  unfold substring. induction s as [|c s IH]; simpl;
    rewrite orb_true_iff, startswith_spec.
  - split.
    + intros [[post Hp]|?]; [|done]. by exists "", post.
    + intros ([|? pre] & post & Hp); [left; by exists post|done].
  - rewrite IH. split.
    + intros [[post Hp]|(pre & post & Hp)].
      * by exists "", post.
      * exists (String c pre), post. simpl. by rewrite Hp.
    + intros ([|c' pre] & post & Hp).
      * left. by exists post.
      * right. exists pre, post. simpl in Hp. congruence.
Qed.

Lemma substring_lower (k s : string) :
  substring k s → substring (Str.lower k) (Str.lower s).
Proof.
  intros (pre & post & ->). exists (Str.lower pre), (Str.lower post).
  by rewrite !lower_app.
Qed.

(** ** The tokenizer *)

Lemma flush_all (q : ascii → bool) (cur : string) :
  Str.all q cur = true → Forall (λ w, Str.all q w = true) (Str.flush cur).
Proof. destruct cur; simpl; auto. Qed.

Lemma split_go_all (q : ascii → bool) (s cur : string) :
  Str.all (λ c, Chr.isspace c || q c) s = true →
  Str.all q cur = true →
  Forall (λ w, Str.all q w = true) (Str.split_go cur s).
Proof.
  revert cur. induction s as [|c s IH]; intros cur Hs Hcur; simpl in *.
  - by apply flush_all.
  - apply andb_true_iff in Hs as [Hc Hs]. destruct (Chr.isspace c) eqn:Hsp.
    + apply Forall_app. split; [by apply flush_all|by apply IH].
    + apply IH; [done|]. rewrite all_app, Hcur. simpl in *. by rewrite Hc.
Qed.

Lemma sub_special_all (s : string) :
  Str.all (λ c, Chr.isspace c || Chr.lower_alnum c) (sub_special s) = true.
Proof.
  induction s as [|c s IH]; simpl; [done|]. rewrite IH, andb_true_r.
  destruct (Chr.lower_alnum c) eqn:Ha; simpl; [by rewrite Ha, orb_true_r|].
  destruct (Chr.isspace c) eqn:Hsp; simpl; [by rewrite Hsp|done].
Qed.

Lemma clean_text_token (text w : string) : w ∈ clean_text text → token w.
Proof.
  unfold clean_text. intros [Hlen Hw]%list_elem_of_filter. split; [|done].
  pose proof (split_go_all Chr.lower_alnum (sub_special (Str.lower text)) ""
                (sub_special_all _) eq_refl) as HF.
  rewrite Forall_forall in HF. by apply HF.
Qed.

(** ** The tokenizer on Unicode texts *)













(** On the code points below U+0100 the tables agree with those of [Chr]. *)
Lemma to_lower_code (c : ascii) :
  Uni.to_lower (Chr.code c) = [Chr.code (Chr.lower c)].
Proof. each_chr c. Qed.

Lemma code_not_sigma (c : ascii) : (Chr.code c =? 0x3A3)%N = false.
Proof. each_chr c. Qed.

Lemma isspace_code (c : ascii) : Uni.isspace (Chr.code c) = Chr.isspace c.
Proof. each_chr c. Qed.

Lemma lower_alnum_code (c : ascii) : Uni.lower_alnum (Chr.code c) = Chr.lower_alnum c.
Proof. each_chr c. Qed.

Lemma of_string_snoc (s : string) (c : ascii) :
  Uni.of_string (s +:+ String c "") = Uni.of_string s ++ [Chr.code c].
Proof. unfold Uni.of_string. induction s as [|a s IH]; simpl; [done|]. by f_equal. Qed.

Lemma length_of_string (s : string) : length (Uni.of_string s) = String.length s.
Proof. unfold Uni.of_string. induction s; simpl; [done|]. by f_equal. Qed.

Lemma lower_go_of_string (before : list N) (s : string) :
  Uni.lower_go before (Uni.of_string s) = Uni.of_string (Str.lower s).
Proof.
  revert before. induction s as [|c s IH]; intros before; [done|].
  change (Uni.of_string (String c s)) with (Chr.code c :: Uni.of_string s).
  cbn [Uni.lower_go]. rewrite code_not_sigma, to_lower_code, IH. done.
Qed.

Lemma sub_special_of_string (s : string) :
  Uni.sub_special (Uni.of_string s) = Uni.of_string (sub_special s).
Proof.
  induction s as [|c s IH]; [done|].
  change (Uni.of_string (String c s)) with (Chr.code c :: Uni.of_string s).
  unfold Uni.sub_special in *. rewrite fmap_cons, IH. cbn [sub_special].
  rewrite lower_alnum_code, isspace_code.
  by destruct (Chr.lower_alnum c || Chr.isspace c).
Qed.

Lemma flush_of_string (cur : string) :
  Uni.flush (Uni.of_string cur) = Uni.of_string <$> Str.flush cur.
Proof. by destruct cur. Qed.

Lemma split_go_of_string (cur s : string) :
  Uni.split_go (Uni.of_string cur) (Uni.of_string s)
  = Uni.of_string <$> Str.split_go cur s.
Proof.
  revert cur. induction s as [|c s IH]; intros cur.
  - apply flush_of_string.
  - change (Uni.of_string (String c s)) with (Chr.code c :: Uni.of_string s).
    cbn [Uni.split_go Str.split_go]. rewrite isspace_code.
    destruct (Chr.isspace c).
    + rewrite fmap_app, flush_of_string. f_equal. apply (IH "").
    + rewrite <- of_string_snoc. apply IH.
Qed.

(** On a text of code points below U+0100 the two tokenizers agree. *)
Lemma clean_text_of_string (text : string) :
  Uni.clean_text (Uni.of_string text) = Uni.of_string <$> clean_text text.
Proof.
  unfold Uni.clean_text, clean_text, Uni.lower, Uni.split, Str.split.
  rewrite lower_go_of_string, sub_special_of_string.
  rewrite (split_go_of_string "").
  induction (Str.split_go "" (sub_special (Str.lower text))) as [|w l IH]; [done|].
  rewrite fmap_cons, !filter_cons, length_of_string, IH.
  by destruct (decide (2 < String.length w)).
Qed.




(** ** Matching *)

Lemma match_keywords_acc (rs : gset string) (raw : string)
    (targets found missing : list string) :
  foldl (λ '(found, missing) k,
           if bool_decide (k ∈ rs) || Str.contains k raw
           then (found ++ [k], missing)
           else (found, missing ++ [k]))
        (found, missing) targets
  = (found ++ filter (λ k, hit rs raw k = true) targets,
     missing ++ filter (λ k, hit rs raw k ≠ true) targets).
Proof.
  revert found missing.
  induction targets as [|k targets IH]; intros found missing; simpl.
  - by rewrite !app_nil_r.
  - fold (hit rs raw k). destruct (hit rs raw k) eqn:Hk; rewrite IH.
    + rewrite (filter_cons_True (λ k, hit rs raw k = true)) by done.
      rewrite (filter_cons_False (λ k, hit rs raw k ≠ true)) by (intros H; by apply H).
      by rewrite <- app_assoc.
    + rewrite (filter_cons_False (λ k, hit rs raw k = true)) by congruence.
      rewrite (filter_cons_True (λ k, hit rs raw k ≠ true)) by congruence.
      by rewrite <- app_assoc.
Qed.

(** The loop splits [target_keywords], in order, by the test. *)
Lemma match_keywords_filter (rs : gset string) (raw : string) (targets : list string) :
  match_keywords rs raw targets
  = (filter (λ k, hit rs raw k = true) targets,
     filter (λ k, hit rs raw k ≠ true) targets).
Proof. unfold match_keywords. by rewrite match_keywords_acc. Qed.

Lemma hit_spec (resume_words : list string) (raw k : string) :
  hit (list_to_set resume_words) raw k = true ↔ k ∈ resume_words ∨ substring k raw.
Proof.
  unfold hit. rewrite orb_true_iff, bool_decide_eq_true, contains_spec.
  by rewrite elem_of_list_to_set.
Qed.

(** C2.  The found and the missing keywords partition the target
    keywords: as sets their union is the target set, and no keyword is in
    both.  [targets] is the target set in the order the loop visits it. *)
Theorem found_missing_partition (resume_set : gset string) (resume_text : string)
    (targets : list string) :
  let '(found, missing) :=
    match_keywords resume_set (Str.lower resume_text) targets in
  list_to_set found ∪ list_to_set missing =@{gset string} list_to_set targets
  ∧ list_to_set found ##@{gset string} list_to_set missing.
Proof.
  rewrite match_keywords_filter. split.
  - apply set_eq. intros k.
    rewrite elem_of_union, !elem_of_list_to_set, !list_elem_of_filter.
    destruct (hit resume_set (Str.lower resume_text) k); intuition congruence.
  - apply elem_of_disjoint. intros k.
    rewrite !elem_of_list_to_set, !list_elem_of_filter. tauto.
Qed.

(** C3.  A target keyword is found exactly when it is one of the resume
    tokens or a substring of the lower-cased raw resume text, and missing
    exactly when it is neither. *)
Theorem found_iff_token_or_substring (resume_words : list string)
    (resume_text : string) (targets : list string) (k : string) :
  k ∈ targets →
  let resume_set : gset string := list_to_set resume_words in
  let raw_resume_lower := Str.lower resume_text in
  let '(found, missing) := match_keywords resume_set raw_resume_lower targets in
  (k ∈ found ↔ k ∈ resume_set ∨ substring k raw_resume_lower)
  ∧ (k ∈ missing ↔ ¬ (k ∈ resume_set ∨ substring k raw_resume_lower)).
Proof.
  intros Hk. simpl. rewrite match_keywords_filter.
  rewrite !list_elem_of_filter, hit_spec, elem_of_list_to_set. tauto.
Qed.

Lemma found_iff_token_or_substring_witness :
  let '(found, missing) :=
    match_keywords (list_to_set (clean_text "Machine-Learning with Python"))
                   (Str.lower "Machine-Learning with Python")
                   ["python"; "docker"; "learn"] in
  ("learn" ∈ found
     ↔ "learn" ∈ (list_to_set (clean_text "Machine-Learning with Python") : gset string)
       ∨ substring "learn" (Str.lower "Machine-Learning with Python"))
  ∧ ("learn" ∈ missing
     ↔ ¬ ("learn" ∈ (list_to_set (clean_text "Machine-Learning with Python") : gset string)
          ∨ substring "learn" (Str.lower "Machine-Learning with Python"))).
Proof.
  apply (found_iff_token_or_substring
           (clean_text "Machine-Learning with Python")
           "Machine-Learning with Python" ["python"; "docker"; "learn"] "learn").
  vm_compute. apply list_elem_of_In. simpl. auto.
Defined.

(** ** Keyword selection *)

Lemma skill_pass_acc (jd_words : list string) (T : gset string) :
  foldl (λ (T : gset string) word,
           if decide (word ∈ TECH_SKILLS) then T ∪ {[word]} else T) T jd_words
  = T ∪ jd_skills jd_words.
Proof.
  unfold jd_skills. generalize TECH_SKILLS. intros S. revert T.
  induction jd_words as [|w ws IH]; intros T; simpl.
  - by rewrite union_empty_r_L.
  - rewrite IH, filter_cons. destruct (decide (w ∈ S)); [|done].
    by rewrite list_to_set_cons, (assoc_L (∪)).
Qed.

(** [select_target_keywords] is the skill pass, followed by the frequency
    pass when fewer than 5 skills were collected. *)
Lemma select_target_keywords_eq (jd_words : list string) :
  select_target_keywords jd_words
  = if decide (size (jd_skills jd_words) < 5)
    then jd_skills jd_words ∪ list_to_set (jd_top jd_words)
    else jd_skills jd_words.
Proof.
  unfold select_target_keywords. rewrite skill_pass_acc, union_empty_l_L.
  reflexivity.
Qed.

Lemma size_TECH_SKILLS : size TECH_SKILLS = 43.
Proof. vm_compute. reflexivity. Qed.

Lemma size_list_to_set_le (l : list string) :
  size (list_to_set l : gset string) ≤ length l.
Proof.
  induction l as [|x l IH].
  - by rewrite list_to_set_nil, size_empty.
  - rewrite list_to_set_cons, size_union_alt, size_singleton. simpl.
    pose proof (subseteq_size (list_to_set l ∖ {[x]}) (list_to_set l : gset string)
                  ltac:(set_solver)). lia.
Qed.

(** No job description yields more than 43 target keywords. *)
Lemma size_select_target_keywords (jd_words : list string) :
  size (select_target_keywords jd_words) ≤ 43.
Proof.
  rewrite select_target_keywords_eq.
  assert (Hs : size (jd_skills jd_words) ≤ 43).
  { rewrite <- size_TECH_SKILLS. apply subseteq_size. unfold jd_skills.
    intros w. rewrite elem_of_list_to_set, list_elem_of_filter. tauto. }
  destruct (decide _) as [Hlt|]; [|done].
  rewrite size_union_alt.
  pose proof (subseteq_size (list_to_set (jd_top jd_words) ∖ jd_skills jd_words)
                (list_to_set (jd_top jd_words) : gset string) ltac:(set_solver)).
  pose proof (size_list_to_set_le (jd_top jd_words)) as Hl.
  unfold jd_top, most_common in Hl. rewrite length_fmap, length_take in Hl.
  unfold jd_top, most_common in *. lia.
Qed.

(** ** Scoring *)

Lemma derived_targets_length (jd_text : string) (targets : list string) :
  derived_targets jd_text targets → length targets ≤ 43.
Proof.
  unfold derived_targets. intros ->.
  apply (size_select_target_keywords (clean_text jd_text)).
Qed.

Lemma score_exact_table :
  forallb (λ total, forallb (λ n_found, score_exact n_found total) (seq 0 (S total)))
          (seq 0 50) = true.
Proof. vm_compute. reflexivity. Qed.

(** On fewer than 50 target keywords the binary64 computation of the score
    agrees with the integer quotient. *)
Lemma calculate_score_exact (n_found total : nat) :
  n_found ≤ total → total < 50 →
  calculate_score n_found total = Some (100 * Z.of_nat n_found ÷ Z.of_nat total)%Z.
Proof.
  intros Hle Hlt. pose proof score_exact_table as Ht.
  rewrite forallb_forall in Ht. specialize (Ht total).
  rewrite forallb_forall in Ht.
  assert (Hin : score_exact n_found total = true).
  { apply Ht; apply in_seq; lia. }
  by apply bool_decide_eq_true in Hin.
Qed.

(** From 50 target keywords on the two can differ by one. *)
Lemma calculate_score_29_of_50 :
  calculate_score 29 50 = Some 57%Z ∧ (100 * 29 ÷ 50 = 58)%Z.
Proof. split; vm_compute; reflexivity. Qed.

Lemma length_found_le (rs : gset string) (raw : string) (targets : list string) :
  length (match_keywords rs raw targets).1 ≤ length targets.
Proof. rewrite match_keywords_filter. apply length_filter. Qed.

(** C1.  For every target keyword set derived from a job description and
    every resume, the score, computed on binary64 values, is
    100 * |found| / |targets| truncated toward zero; it is 0 when there is
    no target keyword. *)
Theorem score_truncated_percentage (jd_text : string) (resume_words : list string)
    (resume_text : string) (targets : list string) :
  derived_targets jd_text targets →
  let found :=
    (match_keywords (list_to_set resume_words) (Str.lower resume_text) targets).1 in
  calculate_score (length found) (length targets)
  = Some (100 * Z.of_nat (length found) ÷ Z.of_nat (length targets))%Z
  ∧ (targets = [] → calculate_score (length found) (length targets) = Some 0%Z).
Proof.
  intros Hd found. split.
  - apply calculate_score_exact; [apply length_found_le|].
    apply derived_targets_length in Hd. lia.
  - by intros ->.
Qed.

Lemma score_truncated_percentage_witness :
  let jd_text := "Looking for Python, React and Docker skills; Python a must" in
  let resume_text := "Built React apps using Python" in
  let targets := elements (select_target_keywords (clean_text jd_text)) in
  let found :=
    (match_keywords (list_to_set (clean_text resume_text))
                    (Str.lower resume_text) targets).1 in
  calculate_score (length found) (length targets)
  = Some (100 * Z.of_nat (length found) ÷ Z.of_nat (length targets))%Z
  ∧ (targets = [] → calculate_score (length found) (length targets) = Some 0%Z).
Proof.
  apply (score_truncated_percentage
           "Looking for Python, React and Docker skills; Python a must").
  unfold derived_targets. reflexivity.
Defined.

(** ** Frequency counting *)

Lemma occurrences_snoc (w x : string) (ws : list string) :
  occurrences w (ws ++ [x]) = occurrences w ws + (if decide (x = w) then 1 else 0).
Proof.
  unfold occurrences. rewrite filter_app, length_app, filter_cons, filter_nil.
  by destruct (decide (x = w)).
Qed.

Lemma occurrences_pos (w : string) (ws : list string) :
  w ∈ ws ↔ 0 < occurrences w ws.
Proof.
  unfold occurrences. induction ws as [|x ws IH].
  - split; [by intros ?%not_elem_of_nil|simpl; lia].
  - rewrite elem_of_cons, filter_cons.
    destruct (decide (x = w)) as [->|Hne]; simpl.
    + split; [lia|auto].
    + rewrite <- IH. split; [intros [?|?]; [congruence|done]|auto].
Qed.

Lemma first_index_lt (w : string) (ws : list string) :
  w ∈ ws → first_index w ws < length ws.
Proof.
  induction ws as [|x ws IH]; [by intros ?%not_elem_of_nil|].
  intros Hin. simpl. destruct (decide (x = w)); [lia|].
  apply elem_of_cons in Hin as [?|?]; [congruence|]. apply IH in H. lia.
Qed.

Lemma first_index_app_l (w : string) (ws vs : list string) :
  w ∈ ws → first_index w (ws ++ vs) = first_index w ws.
Proof.
  induction ws as [|x ws IH]; [by intros ?%not_elem_of_nil|].
  intros Hin. simpl. destruct (decide (x = w)); [done|].
  apply elem_of_cons in Hin as [?|?]; [congruence|]. by rewrite IH.
Qed.

Lemma first_index_snoc_new (w : string) (ws : list string) :
  w ∉ ws → first_index w (ws ++ [w]) = length ws.
Proof.
  induction ws as [|x ws IH]; intros Hin; simpl.
  - by rewrite decide_True.
  - apply not_elem_of_cons in Hin as [? ?]. rewrite decide_False by done.
    by rewrite IH.
Qed.

Lemma first_index_sorted_app (l ws vs : list string) :
  (∀ w, w ∈ l → w ∈ ws) →
  StronglySorted (λ a b, first_index a ws < first_index b ws) l →
  StronglySorted (λ a b, first_index a (ws ++ vs) < first_index b (ws ++ vs)) l.
Proof.
  intros Hin Hs. induction Hs as [|a l Hs IH Ha]; constructor.
  - apply IH. intros w ?. by apply Hin, list_elem_of_further.
  - apply Forall_forall. intros b Hb. rewrite Forall_forall in Ha.
    rewrite !first_index_app_l.
    + by apply Ha.
    + by apply Hin, list_elem_of_further.
    + apply Hin, list_elem_of_here.
Qed.

(** *** [counter_incr] *)

Lemma counter_incr_keys (w : string) (c : counter) :
  (counter_incr w c).*1 = if decide (w ∈ c.*1) then c.*1 else c.*1 ++ [w].
Proof.
  induction c as [|[k n] c IH]; [done|].
  cbn [counter_incr]. destruct (decide (k = w)) as [->|Hne]; rewrite !fmap_cons.
  - by rewrite decide_True by apply list_elem_of_here.
  - rewrite IH. cbn [fst]. destruct (decide (w ∈ c.*1)) as [Hin|Hin].
    + by rewrite decide_True by by apply list_elem_of_further.
    + rewrite decide_False; [done|].
      rewrite elem_of_cons. intros [?|?]; congruence.
Qed.

Lemma counter_incr_counts (f f' : string → nat) (w : string) (c : counter) :
  (∀ k, k ≠ w → f' k = f k) → f' w = S (f w) → (w ∉ c.*1 → f w = 0) →
  NoDup c.*1 →
  Forall (λ kn, kn.2 = f kn.1) c →
  Forall (λ kn, kn.2 = f' kn.1) (counter_incr w c).
Proof.
  intros Hother Hw. induction c as [|[k n] c IH]; intros Hnew Hnd Hc.
  - repeat constructor. cbn [snd fst]. rewrite Hw, Hnew; [done|apply not_elem_of_nil].
  - rewrite fmap_cons in Hnd, Hnew. cbn [fst] in Hnd, Hnew.
    apply NoDup_cons in Hnd as [Hk Hnd]. apply Forall_cons in Hc as [Hkn Hc].
    cbn [snd fst] in Hkn. cbn [counter_incr].
    destruct (decide (k = w)) as [->|Hne]; constructor; cbn [snd fst].
    + by rewrite Hw, Hkn.
    + apply Forall_forall. intros [k' n'] Hin. rewrite Forall_forall in Hc.
      pose proof (Hc _ Hin) as E. cbn [snd fst] in *. rewrite E, Hother; [done|].
      intros ->. apply Hk. by apply (list_elem_of_fmap_2 fst) in Hin.
    + by rewrite Hkn, Hother.
    + apply IH; [|done|done]. intros Hin. apply Hnew.
      rewrite elem_of_cons. intros [?|?]; congruence.
Qed.

Lemma Counter_snoc (ws : list string) (w : string) :
  Counter (ws ++ [w]) = counter_incr w (Counter ws).
Proof. unfold Counter. by rewrite foldl_snoc. Qed.

(** The keys of [Counter(ws)] are the distinct elements of [ws], in the
    order in which they are first seen. *)
Lemma Counter_keys (ws : list string) :
  NoDup (Counter ws).*1
  ∧ (∀ w, w ∈ (Counter ws).*1 ↔ w ∈ ws)
  ∧ StronglySorted (λ a b, first_index a ws < first_index b ws) (Counter ws).*1.
Proof.
  induction ws as [|x ws (Hnd & Hin & Hs)] using rev_ind.
  - split; [constructor|]. split; [done|constructor].
  - rewrite Counter_snoc, counter_incr_keys.
    assert (Hmono : StronglySorted
              (λ a b, first_index a (ws ++ [x]) < first_index b (ws ++ [x]))
              (Counter ws).*1).
    { apply first_index_sorted_app; [|done]. intros w. apply Hin. }
    destruct (decide (x ∈ (Counter ws).*1)) as [Hx|Hx].
    + split; [done|]. split; [|done].
      intros w. rewrite Hin, elem_of_app, list_elem_of_singleton.
      split; [auto|]. intros [?| ->]; [done|]. by apply Hin.
    + split; [|split].
      * apply NoDup_app. split; [done|]. split; [|apply NoDup_singleton].
        intros w Hw Hw'%list_elem_of_singleton. by subst.
      * intros w. rewrite !elem_of_app, Hin. tauto.
      * apply StronglySorted_app_2; [|done|repeat constructor].
        intros a b Ha Hb%list_elem_of_singleton. subst b.
        rewrite first_index_app_l by by apply Hin.
        rewrite first_index_snoc_new by by rewrite <- Hin.
        apply first_index_lt. by apply Hin.
Qed.

(** Each key is stored with the number of its occurrences. *)
Lemma Counter_counts (ws : list string) :
  Forall (λ kn, kn.2 = occurrences kn.1 ws) (Counter ws).
Proof.
  induction ws as [|x ws IH] using rev_ind; [constructor|].
  rewrite Counter_snoc.
  apply (counter_incr_counts (λ k, occurrences k ws)
                             (λ k, occurrences k (ws ++ [x])));
    [..|apply Counter_keys|done].
  - intros k Hne. rewrite occurrences_snoc, decide_False by done. lia.
  - rewrite occurrences_snoc, decide_True by done. lia.
  - intros Hx. pose proof (occurrences_pos x ws) as Hp.
    destruct (Counter_keys ws) as (_ & Hin & _). rewrite <- Hin in Hp.
    destruct (occurrences x ws); [done|]. exfalso. apply Hx, Hp. lia.
Qed.

(** ** [most_common] *)

Lemma insert_desc_perm (x : string * nat) (l : counter) : insert_desc x l ≡ₚ x :: l.
Proof.
  induction l as [|y l IH]; [done|]. cbn [insert_desc].
  destruct (decide (y.2 ≤ x.2)); [done|]. rewrite IH. apply Permutation_swap.
Qed.

Lemma sorted_desc_perm (c : counter) : sorted_desc c ≡ₚ c.
Proof.
  induction c as [|x c IH]; [done|].
  cbn [sorted_desc foldr]. fold (sorted_desc c). by rewrite insert_desc_perm, IH.
Qed.

Lemma insert_desc_sorted (ws : list string) (x : string * nat) (l : counter) :
  StronglySorted (item_before ws) l →
  Forall (λ y, first_index x.1 ws < first_index y.1 ws) l →
  StronglySorted (item_before ws) (insert_desc x l).
Proof.
  induction 1 as [|y l Hs IH Hy]; intros Hx; [repeat constructor|].
  apply Forall_cons in Hx as [Hxy Hx]. cbn [insert_desc].
  destruct (decide (y.2 ≤ x.2)) as [Hle|Hgt].
  - constructor; [by constructor|]. constructor.
    + unfold item_before. lia.
    + rewrite Forall_forall in Hy, Hx. apply Forall_forall. intros z Hz.
      specialize (Hy z Hz). specialize (Hx z Hz). unfold item_before in *. lia.
  - constructor; [by apply IH|].
    rewrite insert_desc_perm. constructor; [|done]. unfold item_before. lia.
Qed.

Lemma sorted_desc_sorted (ws : list string) (c : counter) :
  StronglySorted (λ x y, first_index x.1 ws < first_index y.1 ws) c →
  StronglySorted (item_before ws) (sorted_desc c).
Proof.
  induction 1 as [|x c Hs IH Hx]; [constructor|].
  cbn [sorted_desc foldr]. fold (sorted_desc c).
  apply insert_desc_sorted; [done|]. by rewrite sorted_desc_perm.
Qed.

Lemma sorted_keys_items (R : relation string) (c : counter) :
  StronglySorted R c.*1 → StronglySorted (λ x y, R x.1 y.1) c.
Proof.
  induction c as [|x c IH]; [constructor|]. rewrite fmap_cons.
  intros [Hx Hs]%StronglySorted_cons. constructor; [by apply IH|].
  rewrite Forall_fmap in Hx. done.
Qed.

Lemma sorted_items_ranks (ws : list string) (l : counter) :
  Forall (λ kn, kn.2 = occurrences kn.1 ws) l →
  StronglySorted (item_before ws) l →
  StronglySorted (ranks_before ws) l.*1.
Proof.
  intros Hc Hs. induction Hs as [|x l Hs IH Hx]; [constructor|].
  apply Forall_cons in Hc as [Hcx Hc]. rewrite fmap_cons.
  constructor; [by apply IH|].
  rewrite Forall_fmap. rewrite Forall_forall in Hx, Hc. apply Forall_forall.
  intros y Hy. specialize (Hx y Hy). specialize (Hc y Hy).
  unfold item_before, ranks_before, compose in *. lia.
Qed.

Lemma jd_top_take (jd_words : list string) :
  jd_top jd_words = take 10 (jd_ranking jd_words).
Proof. unfold jd_top, jd_ranking, most_common. apply fmap_take. Qed.

Lemma jd_ranking_perm (jd_words : list string) :
  jd_ranking jd_words ≡ₚ (Counter (jd_candidates jd_words)).*1.
Proof. unfold jd_ranking. by rewrite sorted_desc_perm. Qed.

Lemma jd_ranking_elem (jd_words : list string) (w : string) :
  w ∈ jd_ranking jd_words ↔ w ∈ jd_candidates jd_words.
Proof. rewrite jd_ranking_perm. apply Counter_keys. Qed.

Lemma jd_ranking_NoDup (jd_words : list string) : NoDup (jd_ranking jd_words).
Proof. rewrite jd_ranking_perm. apply Counter_keys. Qed.

Lemma jd_ranking_sorted (jd_words : list string) :
  StronglySorted (ranks_before (jd_candidates jd_words)) (jd_ranking jd_words).
Proof.
  apply sorted_items_ranks.
  - rewrite sorted_desc_perm. apply Counter_counts.
  - apply sorted_desc_sorted.
    apply (sorted_keys_items
             (λ a b, first_index a (jd_candidates jd_words)
                     < first_index b (jd_candidates jd_words))).
    apply Counter_keys.
Qed.

Lemma jd_ranking_length (jd_words : list string) :
  length (jd_ranking jd_words) = size (list_to_set (jd_candidates jd_words) : gset string).
Proof.
  rewrite <- (size_list_to_set (C:=gset string)) by apply jd_ranking_NoDup.
  f_equal. apply set_eq. intros w.
  by rewrite !elem_of_list_to_set, jd_ranking_elem.
Qed.

(** C4.  The selector first collects the tokens of the job description
    that are technical skills.  Exactly when fewer than 5 were collected
    it adds the 10 most frequent distinct tokens that are not stop words
    (all of them when there are fewer than 10), equally frequent ones in
    the order they are first seen; otherwise it adds nothing. *)
Theorem select_target_keywords_spec (jd_words : list string) :
  let skills := jd_skills jd_words in
  let candidates := jd_candidates jd_words in
  let top := jd_top jd_words in
  (∀ w, w ∈ skills ↔ w ∈ jd_words ∧ w ∈ TECH_SKILLS)
  ∧ (∀ w, w ∈ candidates ↔ w ∈ jd_words ∧ w ∉ COMMON_STOP_WORDS)
  ∧ select_target_keywords jd_words
    = (if decide (size skills < 5) then skills ∪ list_to_set top else skills)
  ∧ NoDup top
  ∧ (∀ w, w ∈ top → w ∈ candidates)
  ∧ length top = 10 `min` size (list_to_set candidates : gset string)
  ∧ StronglySorted (ranks_before candidates) top
  ∧ (∀ a b, a ∈ top → b ∈ candidates → b ∉ top → ranks_before candidates a b).
Proof.
  intros skills candidates top. subst skills candidates top.
  pose proof (take_drop 10 (jd_ranking jd_words)) as Hsplit.
  pose proof (jd_ranking_sorted jd_words) as Hsorted.
  rewrite jd_top_take. split_and!.
  - intros w. unfold jd_skills. rewrite elem_of_list_to_set, list_elem_of_filter. tauto.
  - intros w. unfold jd_candidates. rewrite list_elem_of_filter. tauto.
  - rewrite select_target_keywords_eq. by rewrite jd_top_take.
  - apply (sublist_NoDup (take 10 (jd_ranking jd_words)) (jd_ranking jd_words)).
    + apply jd_ranking_NoDup.
    + apply sublist_take.
  - intros w Hw. apply jd_ranking_elem. by apply (subseteq_take 10).
  - by rewrite length_take, jd_ranking_length.
  - rewrite <- Hsplit in Hsorted. by apply StronglySorted_app_1_l in Hsorted.
  - intros a b Ha Hb Hnb. apply jd_ranking_elem in Hb.
    rewrite <- Hsplit in Hb, Hsorted. apply elem_of_app in Hb as [?|Hb]; [done|].
    by apply (StronglySorted_app_1_elem_of _ _ _ _ _ Hsorted).
Qed.

Lemma select_target_keywords_sub (jd_words : list string) (k : string) :
  k ∈ select_target_keywords jd_words → k ∈ jd_words.
Proof.
  rewrite select_target_keywords_eq.
  assert (Hs : k ∈ jd_skills jd_words → k ∈ jd_words).
  { by intros [? ?]%elem_of_list_to_set%list_elem_of_filter. }
  destruct (decide _); [|done].
  intros [?|Hk%elem_of_list_to_set]%elem_of_union; [auto|].
  rewrite jd_top_take in Hk. apply (subseteq_take 10), jd_ranking_elem in Hk.
  by apply list_elem_of_filter in Hk as [_ ?].
Qed.

(** A derived target keyword is one of the tokens of the job description. *)
Lemma derived_keyword_token (jd_text k : string) :
  k ∈ select_target_keywords (clean_text jd_text) → token k.
Proof. by intros Hk%select_target_keywords_sub%clean_text_token. Qed.

Lemma untokenizable_not_token (entry : string) :
  entry ∈ untokenizable_skills → ¬ token entry.
Proof.
  unfold untokenizable_skills. rewrite !elem_of_cons, elem_of_nil.
  intros H [Hall Hlen].
  repeat (destruct H as [->|H]; [vm_compute in Hall, Hlen; (discriminate || lia)|]).
  done.
Qed.

Lemma untokenizable_in_lexicon :
  Forall (λ entry, entry ∈ TECH_SKILLS) untokenizable_skills.
Proof. repeat constructor; vm_compute; reflexivity. Qed.

(** C10.  Every derived target keyword is a single token: lower-case ASCII
    letters and digits only, longer than 2.  So it is none of the lexicon
    entries that contain a space or punctuation or are too short. *)
Theorem target_keywords_are_tokens (jd_text k : string) :
  k ∈ select_target_keywords (clean_text jd_text) →
  token k ∧ k ∉ untokenizable_skills.
Proof.
  intros Hk%derived_keyword_token. split; [done|].
  intros Hin. by apply untokenizable_not_token in Hin.
Qed.

Lemma target_keywords_are_tokens_witness :
  token "python" ∧ "python" ∉ untokenizable_skills.
Proof.
  apply (target_keywords_are_tokens "Python and Go, C++, machine learning").
  vm_compute. reflexivity.
Defined.

(** ** Full matches *)

(** The analysis of a derived target list always yields a response: the
    conversion of the score to an integer never raises. *)
Lemma analyze_targets_ok (jd_text resume_text : string) (targets : list string) :
  derived_targets jd_text targets →
  ∃ r, analyze_targets resume_text targets = Ok r.
Proof.
  intros Hd. unfold analyze_targets.
  destruct (match_keywords _ _ targets) as [found missing] eqn:Hm.
  assert (Hlen : length found ≤ length targets).
  { change found with (found, missing).1. rewrite <- Hm. apply length_found_le. }
  apply derived_targets_length in Hd.
  rewrite calculate_score_exact by lia. eauto.
Qed.

Lemma Forall_contains (text : string) (l : list string) :
  forallb (λ k, Str.contains k text) l = true → Forall (λ k, substring k text) l.
Proof.
  rewrite forallb_forall, Forall_forall. intros H k Hk.
  apply contains_spec, H. by apply list_elem_of_In.
Qed.

(** C6, as worded, fails on the empty target set: the job description
    ["!!"] has no token, so every target keyword appears in the resume,
    and the score is 0. *)
Lemma full_match_empty_targets :
  let resume_text := "Python developer" in
  let targets := elements (select_target_keywords (clean_text "!!")) in
  let found :=
    (match_keywords (list_to_set (clean_text resume_text))
                    (Str.lower resume_text) targets).1 in
  Forall (λ k, substring k resume_text) targets
  ∧ calculate_score (length found) (length targets) = Some 0%Z
  ∧ calculate_score (length found) (length targets) ≠ Some 100%Z.
Proof. vm_compute. split; [constructor|]. split; [reflexivity|discriminate]. Qed.

(** C6, amended.  For a non-empty target keyword set derived from a job
    description, if every target keyword literally appears in the raw
    resume text, every keyword is found and the score is 100. *)
Theorem full_match_scores_100 (jd_text resume_text : string)
    (resume_words targets : list string) :
  derived_targets jd_text targets →
  targets ≠ [] →
  Forall (λ k, substring k resume_text) targets →
  let '(found, missing) :=
    match_keywords (list_to_set resume_words) (Str.lower resume_text) targets in
  found = targets ∧ missing = []
  ∧ calculate_score (length found) (length targets) = Some 100%Z.
Proof.
  intros Hd Hne Hall. rewrite match_keywords_filter.
  assert (Hhit : Forall (λ k, hit (list_to_set resume_words)
                                  (Str.lower resume_text) k = true) targets).
  { rewrite Forall_forall in Hall. apply Forall_forall. intros k Hk.
    apply hit_spec. right.
    assert (Htok : token k).
    { unfold derived_targets in Hd. rewrite Hd in Hk.
      apply elem_of_elements in Hk. by apply derived_keyword_token in Hk. }
    destruct Htok as [Htok _]. rewrite <- (lower_fixes_tokens k Htok).
    by apply substring_lower, Hall. }
  assert (Hfound : filter (λ k, hit (list_to_set resume_words)
                                    (Str.lower resume_text) k = true) targets = targets).
  { clear -Hhit. induction Hhit as [|k l Hk _ IH]; [done|].
    by rewrite filter_cons_True, IH. }
  assert (Hmissing : filter (λ k, hit (list_to_set resume_words)
                                      (Str.lower resume_text) k ≠ true) targets = []).
  { clear -Hhit. induction Hhit as [|k l Hk _ IH]; [done|].
    by rewrite filter_cons_False by (intros H; by apply H). }
  rewrite Hfound, Hmissing. split_and!; [done..|].
  apply derived_targets_length in Hd.
  rewrite calculate_score_exact by lia. f_equal.
  apply Z.quot_mul. destruct targets; [done|]. simpl. lia.
Qed.

Lemma full_match_scores_100_witness :
  let '(found, missing) :=
    match_keywords (list_to_set (clean_text "Wrote react and python code"))
                   (Str.lower "Wrote react and python code")
                   (elements (select_target_keywords (clean_text "Python and React!"))) in
  found = elements (select_target_keywords (clean_text "Python and React!"))
  ∧ missing = []
  ∧ calculate_score (length found)
      (length (elements (select_target_keywords (clean_text "Python and React!"))))
    = Some 100%Z.
Proof.
  apply (full_match_scores_100 "Python and React!" "Wrote react and python code").
  - unfold derived_targets. reflexivity.
  - vm_compute. discriminate.
  - apply Forall_contains. vm_compute. reflexivity.
Defined.

(** ** Regular expressions *)

Lemma last_chr_app (prev : option ascii) (w1 w2 : string) :
  Re.last_chr prev (w1 +:+ w2) = Re.last_chr (Re.last_chr prev w1) w2.
Proof. revert prev. induction w1 as [|c w1 IH]; intros prev; simpl; auto. Qed.

Lemma within_0 (hi : option nat) : Re.within hi 0.
Proof. destruct hi; simpl; [lia|done]. Qed.

Lemma within_S (hi : option nat) (n : nat) :
  Re.within hi (S n) ↔ Re.room hi = true ∧ Re.within (pred <$> hi) n.
Proof.
  destruct hi as [[|h]|]; simpl.
  - split; [lia|by intros [? _]].
  - split; [intros; split; [done|lia]|intros [_ ?]; lia].
  - tauto.
Qed.

(** [rep] succeeds exactly when some run of [lo] to [hi] characters of the
    class can be taken off the front so that the continuation accepts. *)
Lemma rep_spec (p : ascii → bool) (s : string) :
  ∀ lo hi prev k,
    Re.rep p lo hi prev s k = true ↔
    ∃ w rest, s = w +:+ rest ∧ Str.all p w = true
              ∧ lo ≤ String.length w ∧ Re.within hi (String.length w)
              ∧ k (Re.last_chr prev w) rest = true.
Proof.
  induction s as [|c s IH]; intros lo hi prev k.
  - cbn [Re.rep]. destruct lo as [|lo].
    + split.
      * intros Hk. exists "", "". split_and!; [done|done|done|apply within_0|done].
      * intros (w & rest & Hs & _ & _ & _ & Hk). destruct w; [|done].
        simpl in Hs. by subst rest.
    + split; [done|]. intros (w & rest & Hs & _ & Hlo & _). destruct w; [|done].
      simpl in Hlo. lia.
  - cbn [Re.rep].
    set (more := if Re.room hi && p c
                 then Re.rep p (pred lo) (pred <$> hi) (Some c) s k else false).
    assert (Hmore : more = true ↔
              ∃ w rest, s = w +:+ rest ∧ Str.all p (String c w) = true
                        ∧ lo ≤ String.length (String c w)
                        ∧ Re.within hi (String.length (String c w))
                        ∧ k (Re.last_chr prev (String c w)) rest = true).
    { subst more. cbn [Str.all String.length Re.last_chr].
      destruct (Re.room hi) eqn:Hroom, (p c) eqn:Hpc; cbn [andb].
      - rewrite IH. split.
        + intros (w & rest & -> & Hall & Hlo & Hhi & Hk). exists w, rest.
          split_and!; [done|done|lia| |done]. apply within_S. by rewrite Hroom.
        + intros (w & rest & -> & Hall & Hlo & Hhi & Hk). exists w, rest.
          apply within_S in Hhi as [_ Hhi]. split_and!; [done|done|lia|done|done].
      - split; [done|]. by intros (w & rest & _ & ? & _).
      - split; [done|]. intros (w & rest & _ & _ & _ & Hhi & _).
        apply within_S in Hhi as [? _]. congruence.
      - split; [done|]. by intros (w & rest & _ & ? & _). }
    destruct lo as [|lo].
    + destruct more eqn:Hm.
      * split; [|done]. intros _. destruct Hmore as [Hmore _].
        destruct (Hmore eq_refl) as (w & rest & -> & H). by exists (String c w), rest.
      * split.
        -- intros Hk. exists "", (String c s).
           split_and!; [done|done|done|apply within_0|done].
        -- intros (w & rest & Hs & H). destruct w as [|c' w].
           ++ simpl in Hs. subst rest. by destruct H as (_ & _ & _ & ?).
           ++ simpl in Hs. injection Hs as <- ->.
              destruct Hmore as [_ Hmore]. discriminate Hmore. by exists w, rest.
    + rewrite Hmore. split.
      * intros (w & rest & -> & H). by exists (String c w), rest.
      * intros (w & rest & Hs & H). destruct w as [|c' w].
        -- destruct H as (_ & Hlo & _). simpl in Hlo. lia.
        -- simpl in Hs. injection Hs as <- ->. by exists w, rest.
Qed.

(** [run] succeeds exactly when the pattern matches a prefix of the text and
    the continuation accepts the rest. *)
Lemma run_spec (r : Re.t) :
  ∀ prev s k,
    Re.run r prev s k = true ↔
    ∃ w rest, s = w +:+ rest ∧ Re.matches r prev w rest
              ∧ k (Re.last_chr prev w) rest = true.
Proof.
  induction r as [| |p|p lo hi|r1 IH1 r2 IH2|r1 IH1 r2 IH2]; intros prev s k;
    cbn [Re.run Re.matches].
  - split.
    + intros Hk. by exists "", s.
    + intros (w & rest & -> & -> & Hk). done.
  - destruct (Re.boundary prev s) eqn:Hb.
    + split.
      * intros Hk. by exists "", s.
      * intros (w & rest & -> & [-> _] & Hk). done.
    + split; [done|]. intros (w & rest & -> & [-> Hb'] & _). simpl in Hb. congruence.
  - destruct s as [|c s].
    + split; [done|]. intros (w & rest & Hs & (c & -> & _) & _). done.
    + destruct (p c) eqn:Hpc.
      * split.
        -- intros Hk. exists (String c ""), s. split_and!; [done|by exists c|done].
        -- intros (w & rest & Hs & (c' & -> & _) & Hk). simpl in Hs.
           by injection Hs as <- ->.
      * split; [done|]. intros (w & rest & Hs & (c' & -> & Hc') & _). simpl in Hs.
        injection Hs as <- ->. congruence.
  - rewrite rep_spec. split.
    + intros (w & rest & -> & ? & ? & ? & ?). by exists w, rest.
    + intros (w & rest & -> & (? & ? & ?) & ?). by exists w, rest.
  - rewrite IH1. split.
    + intros (w1 & rest1 & -> & Hm1 & (w2 & rest & -> & Hm2 & Hk)%IH2).
      exists (w1 +:+ w2), rest. rewrite app_assoc_s, last_chr_app.
      split_and!; [done| |done]. by exists w1, w2.
    + intros (w & rest & -> & (w1 & w2 & -> & Hm1 & Hm2) & Hk).
      exists w1, (w2 +:+ rest). rewrite app_assoc_s. split_and!; [done|done|].
      apply IH2. exists w2, rest. by rewrite <- last_chr_app.
  - destruct (Re.run r1 prev s k) eqn:H1.
    + split; [|done]. intros _. apply IH1 in H1 as (w & rest & -> & Hm & Hk).
      exists w, rest. split_and!; [done|by left|done].
    + rewrite IH2. split.
      * intros (w & rest & -> & Hm & Hk). exists w, rest.
        split_and!; [done|by right|done].
      * intros (w & rest & -> & [Hm|Hm] & Hk); [|by exists w, rest].
        assert (Re.run r1 prev (w +:+ rest) k = true); [|congruence].
        apply IH1. by exists w, rest.
Qed.

Lemma search_from_spec (r : Re.t) (s : string) :
  ∀ prev,
    Re.search_from r prev s = true ↔
    ∃ pre w post, s = pre +:+ w +:+ post ∧ Re.matches r (Re.last_chr prev pre) w post.
Proof.
  induction s as [|c s IH]; intros prev; cbn [Re.search_from].
  - destruct (Re.run r prev "" (λ _ _, true)) eqn:Hrun.
    + split; [|done]. intros _. apply run_spec in Hrun as (w & rest & Hs & Hm & _).
      by exists "", w, rest.
    + split; [done|]. intros (pre & w & post & Hs & Hm).
      destruct pre; [|done]. simpl in Hs, Hm.
      assert (Re.run r prev "" (λ _ _, true) = true); [|congruence].
      apply run_spec. by exists w, post.
  - destruct (Re.run r prev (String c s) (λ _ _, true)) eqn:Hrun.
    + split; [|done]. intros _. apply run_spec in Hrun as (w & rest & Hs & Hm & _).
      by exists "", w, rest.
    + rewrite IH. split.
      * intros (pre & w & post & -> & Hm). by exists (String c pre), w, post.
      * intros (pre & w & post & Hs & Hm). destruct pre as [|c' pre].
        -- simpl in Hs, Hm.
           assert (Re.run r prev (String c s) (λ _ _, true) = true); [|congruence].
           apply run_spec. by exists w, post.
        -- simpl in Hs. injection Hs as <- ->. by exists pre, w, post.
Qed.

(** [re.search]: the pattern matches somewhere in the text. *)
Lemma search_spec (r : Re.t) (text : string) :
  Re.search r text = true ↔
  ∃ pre w post, text = pre +:+ w +:+ post ∧ Re.matches r (Re.last_chr None pre) w post.
Proof. apply search_from_spec. Qed.

(** ** The e-mail check *)

Lemma first_chr_app (w x : string) :
  w ≠ "" → Re.first_chr (w +:+ x) = Re.first_chr w.
Proof. by destruct w. Qed.

Lemma boundary_app (prev : option ascii) (w x : string) :
  w ≠ "" → Re.boundary prev (w +:+ x) = Re.boundary prev w.
Proof. intros Hw. unfold Re.boundary. by rewrite first_chr_app. Qed.

Lemma last_chr_all (p : ascii → bool) (prev : option ascii) (w : string) :
  w ≠ "" → Str.all p w = true → ∃ c, Re.last_chr prev w = Some c ∧ p c = true.
Proof.
  revert prev. induction w as [|c w IH]; intros prev Hne Hall; [done|].
  cbn [Str.all] in Hall. apply andb_true_iff in Hall as [Hc Hw].
  destruct w as [|c' w]; [by exists c|]. by apply (IH (Some c)).
Qed.

Lemma length_pos_nonempty (w : string) : 1 ≤ String.length w ↔ w ≠ "".
Proof. destruct w; simpl; split; (done || lia). Qed.

Lemma nonempty_of_length (w : string) (n : nat) :
  S n ≤ String.length w → w ≠ "".
Proof. destruct w; simpl; [lia|done]. Qed.

(** C7, amended.  The Contact Email check passes exactly when the text
    contains, starting at a word boundary, one or more word characters,
    dots or hyphens, an [@], one or more word characters, dots or hyphens,
    a dot, and 2 to 4 word characters (letters, digits or underscore) that
    are not followed by another word character. *)
Theorem has_email_spec (text : string) :
  has_email text = true ↔
  ∃ pre loc domain tld post,
    text = pre +:+ loc +:+ "@" +:+ domain +:+ "." +:+ tld +:+ post
    ∧ email_at pre loc domain tld post.
Proof.
  unfold has_email. rewrite search_spec. split.
  - intros (pre & w & post & -> & Hm).
    cbn [email_re Re.cat foldr Re.matches Re.plus Re.range Re.chr Re.within] in Hm.
    destruct Hm as (? & w1 & -> & [-> Hstart] & loc & w2 & -> & (Hloc & Hloc1 & _)
                    & ? & w3 & -> & (? & -> & ->%bool_decide_eq_true)
                    & domain & w4 & -> & (Hdom & Hdom1 & _)
                    & ? & w5 & -> & (? & -> & ->%bool_decide_eq_true)
                    & tld & w6 & -> & (Htld & Htld2 & Htld4)
                    & ? & ? & -> & [-> Hend] & ->).
    apply nonempty_of_length in Hloc1 as Hloc', Hdom1 as Hdom', Htld2 as Htld'.
    exists pre, loc, domain, tld, post. split.
    { repeat (rewrite ?app_assoc_s, ?app_empty_r; simpl). done. }
    unfold email_at. split_and!; try done.
    + rewrite <- Hstart. simpl. rewrite app_assoc_s. by rewrite boundary_app.
    + simpl in Hend. revert Hend. unfold Re.boundary.
      match goal with |- context [Re.last_chr ?p tld] =>
        destruct (last_chr_all Chr.word p tld Htld' Htld) as (c' & -> & Hw')
      end.
      simpl. rewrite Hw'. by destruct (Re.is_word (Re.first_chr post)).
  - intros (pre & loc & domain & tld & post & -> & Hstart & Hloc' & Hloc & Hdom'
            & Hdom & [Htld2 Htld4] & Htld & Hend).
    exists pre, (loc +:+ "@" +:+ domain +:+ "." +:+ tld), post. split.
    { repeat (rewrite ?app_assoc_s, ?app_empty_r; simpl). done. }
    cbn [email_re Re.cat foldr Re.matches Re.plus Re.range Re.chr Re.within].
    exists "", (loc +:+ "@" +:+ domain +:+ "." +:+ tld). split; [done|]. split.
    { split; [done|]. simpl. rewrite app_assoc_s. by rewrite boundary_app. }
    exists loc, ("@" +:+ domain +:+ "." +:+ tld). split; [done|]. split.
    { split_and!; [done|by apply length_pos_nonempty|done]. }
    exists "@", (domain +:+ "." +:+ tld). split; [done|]. split.
    { exists "@"%char. by rewrite bool_decide_eq_true. }
    exists domain, ("." +:+ tld). split; [done|]. split.
    { split_and!; [done|by apply length_pos_nonempty|done]. }
    exists ".", tld. split; [done|]. split.
    { exists "."%char. by rewrite bool_decide_eq_true. }
    exists tld, "". split; [by rewrite app_empty_r|]. split; [done|].
    exists "", "". split; [done|]. split; [|done]. split; [done|].
    assert (Htld' : tld ≠ "") by by apply (nonempty_of_length _ 1).
    unfold Re.boundary. simpl.
    match goal with |- context [Re.last_chr ?p tld] =>
      destruct (last_chr_all Chr.word p tld Htld' Htld) as (c' & -> & Hw')
    end.
    simpl. by rewrite Hw', Hend.
Qed.

Lemma claimed_email_search (text : string) :
  claimed_email text ↔ Re.search claimed_email_re text = true.
Proof.
  rewrite search_spec. unfold claimed_email. split.
  - intros (pre & loc & domain & tld & post & -> & Hloc' & Hloc & Hdom'
            & Hdom & [Htld2 Htld4] & Htld).
    exists pre, (loc +:+ "@" +:+ domain +:+ "." +:+ tld), post. split.
    { repeat (rewrite ?app_assoc_s, ?app_empty_r; simpl). done. }
    cbn [claimed_email_re Re.cat foldr Re.matches Re.plus Re.range Re.chr Re.within].
    exists loc, ("@" +:+ domain +:+ "." +:+ tld). split; [done|]. split.
    { split_and!; [done|by apply length_pos_nonempty|done]. }
    exists "@", (domain +:+ "." +:+ tld). split; [done|]. split.
    { exists "@"%char. by rewrite bool_decide_eq_true. }
    exists domain, ("." +:+ tld). split; [done|]. split.
    { split_and!; [done|by apply length_pos_nonempty|done]. }
    exists ".", tld. split; [done|]. split.
    { exists "."%char. by rewrite bool_decide_eq_true. }
    exists tld, "". split; [by rewrite app_empty_r|]. done.
  - intros (pre & w & post & -> & Hm).
    cbn [claimed_email_re Re.cat foldr Re.matches Re.plus Re.range Re.chr Re.within]
      in Hm.
    destruct Hm as (loc & w2 & -> & (Hloc & Hloc1 & _)
                    & ? & w3 & -> & (? & -> & ->%bool_decide_eq_true)
                    & domain & w4 & -> & (Hdom & Hdom1 & _)
                    & ? & w5 & -> & (? & -> & ->%bool_decide_eq_true)
                    & tld & ? & -> & (Htld & Htld2 & Htld4) & ->).
    exists pre, loc, domain, tld, post. split.
    { repeat (rewrite ?app_assoc_s, ?app_empty_r; simpl). done. }
    split_and!; try done; by apply length_pos_nonempty.
Qed.

(** C7, as worded, fails: a text whose only address-like part ends in
    digits passes the check, although it has no top-level domain of 2 to
    4 letters. *)
Lemma has_email_digits_tld :
  has_email "Deployed api@2.10 to prod" = true
  ∧ ¬ claimed_email "Deployed api@2.10 to prod".
Proof.
  split; [vm_compute; reflexivity|].
  rewrite claimed_email_search. vm_compute. discriminate.
Qed.

(** In the other direction, an address whose last label is longer than 4
    contains the worded pattern and yet does not pass. *)
Lemma has_email_long_tld :
  has_email "Mail: user@mail.online" = false
  ∧ claimed_email "Mail: user@mail.online".
Proof.
  split; [vm_compute; reflexivity|].
  rewrite claimed_email_search. vm_compute. reflexivity.
Qed.

(** ** The list of checks *)

(** C8.  The auditor returns six checks, labelled in this order, and the
    fifth and the sixth pass whatever the text is. *)
Theorem check_formatting_rules_shape (text : string) :
  length (check_formatting_rules text) = 6
  ∧ label <$> check_formatting_rules text
    = [ "Contact Email"; "Phone Number"; "Action Verbs"; "Metrics/Numbers";
        "Consistent Formatting"; "No Typos" ]
  ∧ pass <$> check_formatting_rules text !! 4 = Some true
  ∧ pass <$> check_formatting_rules text !! 5 = Some true.
Proof. by split_and!. Qed.

(** The first four are the four pattern searches. *)
Lemma check_formatting_rules_pass (text : string) :
  pass <$> check_formatting_rules text
  = [ has_email text; has_phone text; has_verbs text; has_metrics text; true; true ].
Proof. reflexivity. Qed.

(** ** Tips *)

(** C9.  The tips are 3 when nothing is missing and 4 otherwise.  The
    first depends on the score: below 50, from 50 and below 80, from 80.
    When keywords are missing the second names the first 3 of them (all
    when there are fewer), joined by a comma and a space.  The last two
    are the tips on action verbs and on numbers. *)
Theorem generate_optimization_tips_spec (score : Z) (missing : list string) :
  let tips := generate_optimization_tips score missing in
  length tips = (if decide (missing = []) then 3 else 4)
  ∧ head tips = Some (if decide (score < 50)%Z then tip_low
                      else if decide (score < 80)%Z then tip_mid
                      else tip_high)
  ∧ (missing ≠ [] →
     tips !! 1 = Some ("Try to weave in these top missing keywords: "
                       +:+ Str.join ", " (take 3 missing) +:+ "."))
  ∧ drop (length tips - 2) tips = [tip_verbs; tip_numbers].
Proof.
  unfold generate_optimization_tips.
  destruct missing as [|k missing];
    destruct (decide (score < 50)%Z); [| destruct (decide (score < 80)%Z) |
                                       | destruct (decide (score < 80)%Z)];
    (split_and!; [done|done| |done]).
  all: by intros ?.
Qed.

Lemma generate_optimization_tips_spec_witness :
  generate_optimization_tips 30 ["docker"; "aws"] !! 1
  = Some "Try to weave in these top missing keywords: docker, aws.".
Proof.
  apply (proj1 (proj2 (proj2 (generate_optimization_tips_spec 30 ["docker"; "aws"])))).
  discriminate.
Defined.

(** * Further properties *)

(** ** Character maps *)

Lemma chr_lower_idem (c : ascii) : Chr.lower (Chr.lower c) = Chr.lower c.
Proof. each_chr c. Qed.

Lemma lower_idem (s : string) : Str.lower (Str.lower s) = Str.lower s.
Proof. induction s as [|c s IH]; simpl; [done|]. by rewrite chr_lower_idem, IH. Qed.

Lemma lower_empty_iff (s : string) : Str.lower s = "" ↔ s = "".
Proof. by destruct s. Qed.

Lemma length_lower (s : string) : String.length (Str.lower s) = String.length s.
Proof. induction s; simpl; congruence. Qed.

Lemma length_append (a b : string) :
  String.length (a +:+ b) = String.length a + String.length b.
Proof. induction a; simpl; congruence. Qed.

Lemma sub_special_app (a b : string) :
  sub_special (a +:+ b) = sub_special a +:+ sub_special b.
Proof. induction a; simpl; congruence. Qed.

(** A text that a character-wise map sends to [a + b] splits accordingly. *)
Lemma lower_split (s a b : string) :
  Str.lower s = a +:+ b →
  ∃ a' b', s = a' +:+ b' ∧ Str.lower a' = a ∧ Str.lower b' = b.
Proof.
  revert s. induction a as [|c a IH]; intros s Hs.
  - by exists "", s.
  - destruct s as [|c' s]; [done|]. simpl in Hs. injection Hs as <- Hs.
    destruct (IH s Hs) as (a' & b' & -> & <- & <-). by exists (String c' a'), b'.
Qed.

Lemma sub_special_split (s a b : string) :
  sub_special s = a +:+ b →
  ∃ a' b', s = a' +:+ b' ∧ sub_special a' = a ∧ sub_special b' = b.
Proof.
  revert s. induction a as [|c a IH]; intros s Hs.
  - by exists "", s.
  - destruct s as [|c' s]; [done|]. simpl in Hs. injection Hs as <- Hs.
    destruct (IH s Hs) as (a' & b' & -> & <- & <-). by exists (String c' a'), b'.
Qed.

Lemma sub_special_fixes (w : string) :
  Str.all Chr.lower_alnum w = true → sub_special w = w.
Proof.
  induction w as [|c w IH]; simpl; [done|].
  intros [Hc Hw]%andb_true_iff. by rewrite Hc, IH.
Qed.

Lemma sub_special_inv (w' w : string) :
  sub_special w' = w → Str.all Chr.lower_alnum w = true → w' = w.
Proof.
  revert w. induction w' as [|c w' IH]; intros w <-; simpl; [done|].
  intros [Hc Hw]%andb_true_iff. f_equal.
  - destruct (Chr.lower_alnum c || Chr.isspace c); [done|]. by vm_compute in Hc.
  - by apply IH.
Qed.

(** ** The tokenizer, continued *)

Lemma split_go_substring (s cur w : string) :
  w ∈ Str.split_go cur s → substring w (cur +:+ s).
Proof.
  revert cur. induction s as [|c s IH]; intros cur; cbn [Str.split_go].
  - destruct cur; cbn [Str.flush]; [by intros ?%elem_of_nil|].
    intros ->%list_elem_of_singleton. exists "", "". by rewrite !app_empty_r.
  - destruct (Chr.isspace c).
    + intros [Hw|Hw]%elem_of_app.
      * destruct cur; cbn [Str.flush] in Hw; [by apply elem_of_nil in Hw|].
        apply list_elem_of_singleton in Hw as ->. by exists "", (String c s).
      * apply IH in Hw as (pre & post & Hs). simpl in Hs. subst s.
        exists (cur +:+ String c pre), post. by rewrite app_assoc_s.
    + intros Hw%IH. by rewrite app_assoc_s in Hw.
Qed.

Lemma token_in_lowered_text (text w : string) :
  w ∈ clean_text text → substring w (Str.lower text).
Proof.
  intros Hw. pose proof (clean_text_token _ _ Hw) as [Hall _].
  unfold clean_text in Hw. apply list_elem_of_filter in Hw as [_ Hw].
  apply split_go_substring in Hw as (pre & post & Hs). simpl in Hs.
  apply sub_special_split in Hs as (pre' & rest & -> & _ & Hs).
  apply sub_special_split in Hs as (w' & post' & -> & Hw' & _).
  apply sub_special_inv in Hw'; [|done]. subst w'. by exists pre', post'.
Qed.

Lemma split_go_no_space (w cur : string) :
  Str.all (λ c, negb (Chr.isspace c)) w = true →
  Str.split_go cur w = Str.flush (cur +:+ w).
Proof.
  revert cur. induction w as [|c w IH]; intros cur; cbn [Str.split_go Str.all].
  - by rewrite app_empty_r.
  - intros [Hc Hw]%andb_true_iff. apply negb_true_iff in Hc. rewrite Hc.
    rewrite IH by done. by rewrite app_assoc_s.
Qed.

Lemma split_go_sep (a b : string) (c : ascii) (cur : string) :
  Chr.isspace c = true →
  Str.split_go cur (a +:+ String c b) = Str.split_go cur a ++ Str.split_go "" b.
Proof.
  intros Hc. revert cur. induction a as [|x a IH]; intros cur; simpl.
  - by rewrite Hc.
  - destruct (Chr.isspace x); [|by apply IH]. by rewrite IH, app_assoc.
Qed.

Lemma lower_alnum_no_space (c : ascii) :
  Chr.lower_alnum c = true → negb (Chr.isspace c) = true.
Proof. each_chr c. Qed.

Lemma clean_text_of_token (w : string) : token w → clean_text w = [w].
Proof.
  intros [Hall Hlen]. unfold clean_text, Str.split.
  rewrite lower_fixes_tokens, sub_special_fixes by done.
  rewrite split_go_no_space.
  - simpl. destruct w; [simpl in Hlen; lia|]. cbn [Str.flush].
    by rewrite filter_cons_True, filter_nil.
  - revert Hall. clear. induction w as [|c w IH]; simpl; [done|].
    intros [Hc Hw]%andb_true_iff. by rewrite lower_alnum_no_space, IH.
Qed.

(** X1.  A character that is not an ASCII letter or digit separates tokens:
    the tokens of [a + c + b] are the tokens of [a] followed by the tokens
    of [b]. *)
Theorem clean_text_separator (a b : string) (c : ascii) :
  Chr.ascii_alnum c = false →
  clean_text (a +:+ String c b) = clean_text a ++ clean_text b.
Proof.
  intros Hc. unfold clean_text, Str.split.
  rewrite lower_app, sub_special_app. cbn [Str.lower sub_special].
  rewrite lower_alnum_of_lower, Hc, split_go_sep, filter_app; [done|].
  cbn [orb]. by destruct (Chr.isspace (Chr.lower c)) eqn:E.
Qed.

Lemma clean_text_separator_witness :
  clean_text ("C++/Java" +:+ String "," "Go and Rust")
  = clean_text "C++/Java" ++ clean_text "Go and Rust".
Proof. apply clean_text_separator. reflexivity. Defined.

Lemma clean_text_join_tokens (l : list string) :
  Forall token l → clean_text (Str.join " " l) = l.
Proof.
  induction 1 as [|w l Hw Hl IH]; [done|].
  destruct l as [|w' l].
  - by apply clean_text_of_token.
  - change (Str.join " " (w :: w' :: l))
      with (w +:+ String " " (Str.join " " (w' :: l))).
    rewrite clean_text_separator by done. by rewrite IH, clean_text_of_token.
Qed.

(** X2.  Tokenizing is a projection: joining the tokens of a text with
    spaces and tokenizing again gives the same tokens. *)
Theorem clean_text_join_round_trip (text : string) :
  clean_text (Str.join " " (clean_text text)) = clean_text text.
Proof.
  apply clean_text_join_tokens, Forall_forall. intros w. apply clean_text_token.
Qed.

(** ** Matching, continued *)

(** With the tokens of the resume as [resume_set], the membership test of
    the matching loop adds nothing to its substring test. *)
Lemma hit_clean_text (resume_text k : string) :
  hit (list_to_set (clean_text resume_text)) (Str.lower resume_text) k
  = Str.contains k (Str.lower resume_text).
Proof.
  unfold hit. destruct (bool_decide _) eqn:Hk; [|done].
  apply bool_decide_eq_true, elem_of_list_to_set in Hk.
  apply token_in_lowered_text, contains_spec in Hk. by rewrite Hk.
Qed.

(** X3.  In [analyze] the resume tokens come from the same text as the
    lower-cased raw text, and every token is a substring of it: a target
    keyword is found exactly when it is a substring of the lower-cased
    resume, and missing exactly when it is not. *)
Theorem found_iff_substring (resume_text : string) (targets : list string)
    (k : string) :
  k ∈ targets →
  let '(found, missing) :=
    match_keywords (list_to_set (clean_text resume_text))
                   (Str.lower resume_text) targets in
  (k ∈ found ↔ substring k (Str.lower resume_text))
  ∧ (k ∈ missing ↔ ¬ substring k (Str.lower resume_text)).
Proof.
  intros Hk. rewrite match_keywords_filter.
  rewrite !list_elem_of_filter, hit_clean_text, contains_spec. tauto.
Qed.

Lemma found_iff_substring_witness :
  let '(found, missing) :=
    match_keywords (list_to_set (clean_text "Node.js and PostgreSQL"))
                   (Str.lower "Node.js and PostgreSQL") ["sql"; "node"; "aws"] in
  ("sql" ∈ found ↔ substring "sql" (Str.lower "Node.js and PostgreSQL"))
  ∧ ("sql" ∈ missing ↔ ¬ substring "sql" (Str.lower "Node.js and PostgreSQL")).
Proof.
  apply (found_iff_substring "Node.js and PostgreSQL" ["sql"; "node"; "aws"] "sql").
  apply list_elem_of_here.
Defined.

(** X4.  The matching loop keeps the order of the target list: the found
    and the missing keywords are sublists of it, and together they are the
    target list again, each keyword as often as it is listed. *)
Theorem match_keywords_order (resume_set : gset string) (raw_resume_lower : string)
    (targets : list string) :
  let '(found, missing) := match_keywords resume_set raw_resume_lower targets in
  found `sublist_of` targets
  ∧ missing `sublist_of` targets
  ∧ found ++ missing ≡ₚ targets
  ∧ length found + length missing = length targets.
Proof.
  rewrite match_keywords_filter.
  pose proof (filter_app_complement
                (λ k, hit resume_set raw_resume_lower k = true) targets) as Hp.
  split_and!; [apply sublist_filter..|done|].
  by rewrite <- length_app, Hp.
Qed.

(** ** The response of [analyze] *)

Lemma analyze_Ok_inv (order : gset string → list string)
    (resume_text jd_text : string) (r : Response) :
  enumerates order →
  analyze order resume_text jd_text = Ok r →
  let targets := order (select_target_keywords (clean_text jd_text)) in
  let test := λ k, Str.contains k (Str.lower resume_text) = true in
  resume_text ≠ "" ∧ jd_text ≠ ""
  ∧ derived_targets jd_text targets
  ∧ found_keywords r = filter test targets
  ∧ missing_keywords r = filter (λ k, ¬ test k) targets
  ∧ score r = (100 * Z.of_nat (length (found_keywords r))
               ÷ Z.of_nat (length targets))%Z
  ∧ hard_skills_count r = length (filter (λ k, k ∉ SOFT_SKILLS) (found_keywords r))
  ∧ soft_skills_count r = length (filter (λ k, k ∈ SOFT_SKILLS) (found_keywords r))
  ∧ format_checks r = check_formatting_rules resume_text
  ∧ tips r = generate_optimization_tips (score r) (missing_keywords r).
Proof.
  intros Horder. unfold analyze.
  destruct (bool_decide (resume_text = "")) eqn:Hr; [done|].
  destruct (bool_decide (jd_text = "")) eqn:Hj; [done|].
  apply bool_decide_eq_false in Hr, Hj. cbn [orb].
  set (targets := order (select_target_keywords (clean_text jd_text))).
  assert (Hd : derived_targets jd_text targets) by apply Horder.
  unfold analyze_targets. rewrite match_keywords_filter.
  assert (Hf : filter (λ k, hit (list_to_set (clean_text resume_text))
                                (Str.lower resume_text) k = true) targets
               = filter (λ k, Str.contains k (Str.lower resume_text) = true) targets).
  { apply list_filter_iff. intros k. by rewrite hit_clean_text. }
  assert (Hm : filter (λ k, hit (list_to_set (clean_text resume_text))
                                (Str.lower resume_text) k ≠ true) targets
               = filter (λ k, ¬ Str.contains k (Str.lower resume_text) = true) targets).
  { apply list_filter_iff. intros k. by rewrite hit_clean_text. }
  rewrite Hf, Hm.
  rewrite calculate_score_exact;
    [|apply length_filter|apply derived_targets_length in Hd; lia].
  intros [= <-]. cbn. by split_and!.
Qed.

Lemma analyze_Ok (order : gset string → list string) (resume_text jd_text : string) :
  enumerates order → resume_text ≠ "" → jd_text ≠ "" →
  ∃ r, analyze order resume_text jd_text = Ok r.
Proof.
  intros Horder Hr Hj. unfold analyze.
  rewrite !bool_decide_eq_false_2 by done. cbn [orb].
  by apply (analyze_targets_ok jd_text), Horder.
Qed.

Lemma dict_get_absent (key : string) (members : list (string * Json)) (d : Json) :
  key ∉ members.*1 → dict_get key members d = d.
Proof.
  revert d. induction members as [|[k v] members IH]; intros d Hk; simpl; [done|].
  rewrite fmap_cons in Hk. apply not_elem_of_cons in Hk as [Hne Hk].
  rewrite bool_decide_eq_false_2 by done. by apply IH.
Qed.

Lemma truthy_str (s : string) : truthy (JStr s) = true ↔ s ≠ "".
Proof. simpl. rewrite negb_true_iff, bool_decide_eq_false. done. Qed.

Lemma field_obj (key : string) (members : list (string * Json)) (v : Json) :
  field key (JObj members) v ↔ dict_get key members (JStr "") = v.
Proof. split; [by intros (? & [= <-] & ?)|intros ?; by exists members]. Qed.

Lemma analyze_request_not_obj (order : gset string → list string) (data : Json) :
  (∀ members, data ≠ JObj members) →
  analyze_request order data = ServerError ∧ ∀ key v, ¬ field key data v.
Proof.
  intros Hno. split.
  - destruct data; try done. by destruct (Hno members).
  - intros key v (members & -> & _). by destruct (Hno members).
Qed.

(** X5.  The answer of the route to a parsed JSON body.  It is the error
    "Both fields are required" exactly when the body is an object and
    [resume_text] or [jd_text], read with the default [''], is false as a
    Python value; so it is when one of the two members is absent.  It is a
    response exactly when both are non-empty strings.  It is an uncaught
    exception exactly when the body is not an object, or both values are
    true and one of them is not a string. *)
Theorem analyze_request_outcome (order : gset string → list string) (data : Json) :
  enumerates order →
  (analyze_request order data = BadRequest "Both fields are required"
   ↔ ∃ resume_text jd_text,
       field "resume_text" data resume_text ∧ field "jd_text" data jd_text
       ∧ (truthy resume_text = false ∨ truthy jd_text = false))
  ∧ ((∃ r, analyze_request order data = Ok r)
     ↔ ∃ resume_text jd_text,
         field "resume_text" data (JStr resume_text)
         ∧ field "jd_text" data (JStr jd_text)
         ∧ resume_text ≠ "" ∧ jd_text ≠ "")
  ∧ (analyze_request order data = ServerError
     ↔ (∀ members, data ≠ JObj members)
       ∨ ∃ resume_text jd_text,
           field "resume_text" data resume_text ∧ field "jd_text" data jd_text
           ∧ truthy resume_text = true ∧ truthy jd_text = true
           ∧ ¬ (is_str resume_text ∧ is_str jd_text))
  ∧ (∀ members key,
       data = JObj members → key ∈ ["resume_text"; "jd_text"] →
       key ∉ members.*1 →
       analyze_request order data = BadRequest "Both fields are required").
Proof.
  intros Horder.
  match goal with
  | |- ?A ∧ ?B ∧ ?C ∧ ?D => cut (A ∧ B ∧ C); [intros (? & ? & ?); split_and!; [done..|]|]
  end.
  { intros members key -> Hkey Habs. unfold analyze_request.
    apply elem_of_cons in Hkey as [->|Hkey];
      [|apply list_elem_of_singleton in Hkey as ->];
      rewrite (dict_get_absent _ _ _ Habs); [done|].
    by destruct (truthy (dict_get "resume_text" members (JStr ""))). }
  assert (Hcases : (∀ members, data ≠ JObj members) ∨ ∃ members, data = JObj members).
  { destruct data; try (by left); right; by eexists. }
  destruct Hcases as [Hno|[members ->]].
  { destruct (analyze_request_not_obj order data Hno) as [-> Hnf].
    split_and!; split.
    - done.
    - by intros (? & ? & ?%Hnf & _).
    - by intros [? ?].
    - by intros (? & ? & ?%Hnf & _).
    - by left.
    - done. }
  setoid_rewrite field_obj. unfold analyze_request.
  set (a := dict_get "resume_text" members (JStr "")).
  set (b := dict_get "jd_text" members (JStr "")).
  destruct (truthy a) eqn:Ha; [destruct (truthy b) eqn:Hb|]; cbn [negb orb].
  - assert (Hstr : (∃ s1 s2, a = JStr s1 ∧ b = JStr s2 ∧ s1 ≠ "" ∧ s2 ≠ "")
                   ∨ ¬ (is_str a ∧ is_str b)).
    { destruct (a) as [| | | |s1| |] eqn:Ea; try (right; by intros [[? ?] _]).
      destruct (b) as [| | | |s2| |] eqn:Eb; try (right; by intros [_ [? ?]]).
      left. exists s1, s2. by rewrite <- !truthy_str. }
    destruct Hstr as [(s1 & s2 & Ea & Eb & H1 & H2)|Hns].
    + rewrite Ea, Eb. destruct (analyze_Ok order s1 s2 Horder H1 H2) as [r Hr].
      rewrite Hr. split_and!; split; try done.
      * intros (? & ? & <- & <- & [?|?]); congruence.
      * intros _. by exists s1, s2.
      * intros _. by exists r.
      * intros [Hno|(? & ? & <- & <- & _ & _ & Hn)]; [by destruct (Hno members)|].
        destruct Hn. split; by eexists.
    + assert (Hse : match a, b with
                    | JStr resume_text, JStr jd_text => analyze order resume_text jd_text
                    | _, _ => ServerError
                    end = ServerError).
      { destruct a; try done. destruct b; try done. destruct Hns. split; by eexists. }
      rewrite Hse. split_and!; split; try done.
      * intros (? & ? & <- & <- & [?|?]); congruence.
      * by intros [? ?].
      * intros (s1 & s2 & E1 & E2 & _). destruct Hns. split; by eexists.
      * intros _. right. by exists a, b.
  - split_and!; split; try done.
    + intros _. exists a, b. auto.
    + by intros [? ?].
    + intros (s1 & s2 & E1 & E2 & _ & H2). fold b in E2.
      rewrite E2 in Hb. apply truthy_str in H2. congruence.
    + intros [Hno|(? & ? & _ & <- & _ & ? & _)]; [by destruct (Hno members)|].
      congruence.
  - split_and!; split; try done.
    + intros _. exists a, b. auto.
    + by intros [? ?].
    + intros (s1 & s2 & E1 & E2 & H1 & _). fold a in E1.
      rewrite E1 in Ha. apply truthy_str in H1. congruence.
    + intros [Hno|(? & ? & <- & _ & ? & _)]; [by destruct (Hno members)|].
      congruence.
Qed.

Lemma analyze_request_outcome_witness :
  analyze_request elements (JObj [("resume_text", JInt 5); ("jd_text", JStr "Python")])
  = ServerError.
Proof.
  destruct (analyze_request_outcome elements
              (JObj [("resume_text", JInt 5); ("jd_text", JStr "Python")]))
    as (_ & _ & [_ H] & _).
  - intros S. reflexivity.
  - apply H. right. exists (JInt 5), (JStr "Python").
    split_and!; [by eexists|by eexists|done|done|].
    intros [[s Hs] _]. discriminate.
Defined.

(** X6.  The score of a response lies between 0 and 100. *)
Theorem analyze_score_range (order : gset string → list string)
    (resume_text jd_text : string) :
  enumerates order →
  match analyze order resume_text jd_text with
  | Ok r => (0 ≤ score r ≤ 100)%Z
  | _ => True
  end.
Proof.
  intros Horder. destruct (analyze _ _ _) as [r| |] eqn:Hok; [|done..].
  apply analyze_Ok_inv in Hok as (_ & _ & _ & Hf & _ & -> & _); [|done].
  pose proof (length_filter (λ k, Str.contains k (Str.lower resume_text) = true)
                (order (select_target_keywords (clean_text jd_text)))) as Hle.
  rewrite <- Hf in Hle.
  set (f := length (found_keywords r)) in *.
  set (t := length (order (select_target_keywords (clean_text jd_text)))) in *.
  destruct (decide (t = 0)) as [->|Ht].
  - rewrite Z.quot_0_r_ext by done. lia.
  - split; [apply Z.quot_pos; lia|].
    apply Z.quot_le_upper_bound; lia.
Qed.

Lemma analyze_score_range_witness :
  match analyze elements "Built React apps" "Python, React and Docker" with
  | Ok r => (0 ≤ score r ≤ 100)%Z
  | _ => True
  end.
Proof. apply analyze_score_range. intros S. reflexivity. Defined.

(** X7.  Every found keyword is counted once, as a soft skill when it is in
    [SOFT_SKILLS] and as a hard skill otherwise: the two counts add up to
    the number of found keywords. *)
Theorem analyze_skill_counts (order : gset string → list string)
    (resume_text jd_text : string) :
  enumerates order →
  match analyze order resume_text jd_text with
  | Ok r => hard_skills_count r + soft_skills_count r = length (found_keywords r)
  | _ => True
  end.
Proof.
  intros Horder. destruct (analyze _ _ _) as [r| |] eqn:Hok; [|done..].
  apply analyze_Ok_inv in Hok as (_ & _ & _ & _ & _ & _ & -> & -> & _); [|done].
  pose proof (filter_app_complement (λ k, k ∈ SOFT_SKILLS) (found_keywords r)) as Hp.
  apply Permutation_length in Hp. rewrite length_app in Hp. lia.
Qed.

Lemma analyze_skill_counts_witness :
  match analyze elements "Led agile teams, wrote Python" "Agile Python leadership" with
  | Ok r => hard_skills_count r + soft_skills_count r = length (found_keywords r)
  | _ => True
  end.
Proof. apply analyze_skill_counts. intros S. reflexivity. Defined.

(** X8.  The found and the missing keywords of a response are together the
    target keywords of the job description, each one once; every one of
    them is a token of the job description. *)
Theorem analyze_keywords (order : gset string → list string)
    (resume_text jd_text : string) :
  enumerates order →
  match analyze order resume_text jd_text with
  | Ok r =>
      found_keywords r ++ missing_keywords r
        ≡ₚ elements (select_target_keywords (clean_text jd_text))
      ∧ NoDup (found_keywords r ++ missing_keywords r)
      ∧ Forall (λ k, k ∈ clean_text jd_text)
               (found_keywords r ++ missing_keywords r)
  | _ => True
  end.
Proof.
  intros Horder. destruct (analyze _ _ _) as [r| |] eqn:Hok; [|done..].
  apply analyze_Ok_inv in Hok as (_ & _ & Hd & -> & -> & _); [|done].
  assert (Hp : filter (λ k, Str.contains k (Str.lower resume_text) = true)
                 (order (select_target_keywords (clean_text jd_text)))
               ++ filter (λ k, ¬ Str.contains k (Str.lower resume_text) = true)
                    (order (select_target_keywords (clean_text jd_text)))
               ≡ₚ elements (select_target_keywords (clean_text jd_text))).
  { by rewrite filter_app_complement. }
  split_and!; [done| |]; rewrite Hp.
  - apply NoDup_elements.
  - apply Forall_forall. intros k Hk%elem_of_elements.
    by apply select_target_keywords_sub.
Qed.

Lemma analyze_keywords_witness :
  match analyze elements "Built React apps" "Python, React and Docker" with
  | Ok r =>
      found_keywords r ++ missing_keywords r
        ≡ₚ elements (select_target_keywords (clean_text "Python, React and Docker"))
      ∧ NoDup (found_keywords r ++ missing_keywords r)
      ∧ Forall (λ k, k ∈ clean_text "Python, React and Docker")
               (found_keywords r ++ missing_keywords r)
  | _ => True
  end.
Proof. apply analyze_keywords. intros S. reflexivity. Defined.

Lemma length_nil_iff {A} (l : list A) : length l = 0 ↔ l = [].
Proof. destruct l; simpl; split; (done || lia). Qed.

(** X9.  The score is 0 exactly when no keyword is found (in particular
    when there is no target keyword), and 100 exactly when some keyword is
    found and none is missing. *)
Theorem analyze_score_extremes (order : gset string → list string)
    (resume_text jd_text : string) :
  enumerates order →
  match analyze order resume_text jd_text with
  | Ok r => (score r = 0%Z ↔ found_keywords r = [])
            ∧ (score r = 100%Z ↔ found_keywords r ≠ [] ∧ missing_keywords r = [])
  | _ => True
  end.
Proof.
  intros Horder. destruct (analyze _ _ _) as [r| |] eqn:Hok; [|done..].
  apply analyze_Ok_inv in Hok as (_ & _ & Hd & Hf & Hm & -> & _); [|done].
  apply derived_targets_length in Hd.
  pose proof (filter_app_complement
                (λ k, Str.contains k (Str.lower resume_text) = true)
                (order (select_target_keywords (clean_text jd_text)))) as Hp.
  apply Permutation_length in Hp. rewrite length_app, <- Hf, <- Hm in Hp.
  rewrite <- !length_nil_iff.
  set (f := length (found_keywords r)) in *.
  set (m := length (missing_keywords r)) in *.
  set (t := length (order (select_target_keywords (clean_text jd_text)))) in *.
  destruct (decide (t = 0)) as [Ht|Ht].
  - rewrite Ht in *. rewrite Z.quot_0_r_ext by done. lia.
  - rewrite Z.quot_div_nonneg by lia.
    pose proof (Z.div_mod (100 * Z.of_nat f) (Z.of_nat t) ltac:(lia)) as Hdm.
    pose proof (Z.mod_pos_bound (100 * Z.of_nat f) (Z.of_nat t) ltac:(lia)) as Hmod.
    split; split; intros H; nia.
Qed.

Lemma analyze_score_extremes_witness :
  match analyze elements "Built React apps" "Python, React and Docker" with
  | Ok r => (score r = 0%Z ↔ found_keywords r = [])
            ∧ (score r = 100%Z ↔ found_keywords r ≠ [] ∧ missing_keywords r = [])
  | _ => True
  end.
Proof. apply analyze_score_extremes. intros S. reflexivity. Defined.

Lemma length_filter_mono {A} (P Q : A → Prop)
    `{∀ x, Decision (P x)} `{∀ x, Decision (Q x)} (l : list A) :
  (∀ x, P x → Q x) → length (filter P l) ≤ length (filter Q l).
Proof.
  intros HPQ. induction l as [|x l IH]; [done|]. rewrite !filter_cons.
  destruct (decide (P x)) as [HP|HP].
  - rewrite decide_True by auto. simpl. lia.
  - destruct (decide (Q x)); simpl; lia.
Qed.

Lemma substring_extend (k s pre post : string) :
  substring k s → substring k (pre +:+ s +:+ post).
Proof.
  intros (a & b & ->). exists (pre +:+ a), (b +:+ post).
  by rewrite !app_assoc_s.
Qed.

(** X10.  Adding text before or after a resume never loses a keyword: for
    the same job description every keyword found before is still found,
    every keyword missing afterwards was missing before, and the score
    does not drop. *)
Theorem analyze_resume_extension (order : gset string → list string)
    (resume_text jd_text pre post : string) :
  enumerates order →
  match analyze order resume_text jd_text,
        analyze order (pre +:+ resume_text +:+ post) jd_text with
  | Ok r, Ok r' =>
      found_keywords r ⊆ found_keywords r'
      ∧ missing_keywords r' ⊆ missing_keywords r
      ∧ (score r ≤ score r')%Z
  | _, _ => True
  end.
Proof.
  intros Horder.
  destruct (analyze _ resume_text _) as [r| |] eqn:Hok; [|done..].
  destruct (analyze _ (_ +:+ _) _) as [r'| |] eqn:Hok'; [|done..].
  apply analyze_Ok_inv in Hok as (_ & _ & Hd & Hf & Hm & Hs & _); [|done].
  apply analyze_Ok_inv in Hok' as (_ & _ & _ & Hf' & Hm' & Hs' & _); [|done].
  assert (Hsub : ∀ k, Str.contains k (Str.lower resume_text) = true →
                      Str.contains k (Str.lower (pre +:+ resume_text +:+ post)) = true).
  { intros k. rewrite !contains_spec, !lower_app. apply substring_extend. }
  split_and!.
  - intros k. rewrite Hf, Hf', !list_elem_of_filter. naive_solver.
  - intros k. rewrite Hm, Hm', !list_elem_of_filter. naive_solver.
  - rewrite Hs, Hs'.
    set (t := length (order (select_target_keywords (clean_text jd_text)))).
    assert (Hle : length (found_keywords r) ≤ length (found_keywords r')).
    { rewrite Hf, Hf'. by apply length_filter_mono. }
    destruct (decide (t = 0)) as [->|Ht].
    + by rewrite !Z.quot_0_r_ext.
    + apply Z.quot_le_mono; lia.
Qed.

Lemma analyze_resume_extension_witness :
  match analyze elements "Built React apps" "Python, React and Docker",
        analyze elements ("I " +:+ "Built React apps" +:+ " with Docker")
                "Python, React and Docker" with
  | Ok r, Ok r' =>
      found_keywords r ⊆ found_keywords r'
      ∧ missing_keywords r' ⊆ missing_keywords r
      ∧ (score r ≤ score r')%Z
  | _, _ => True
  end.
Proof.
  apply (analyze_resume_extension elements "Built React apps"
           "Python, React and Docker" "I " " with Docker").
  intros S. reflexivity.
Defined.

(** ** Keyword selection, continued *)

Lemma tech_skills_not_stop_words (k : string) :
  k ∈ TECH_SKILLS → k ∉ COMMON_STOP_WORDS.
Proof.
  unfold TECH_SKILLS. rewrite elem_of_list_to_set, list_elem_of_In.
  assert (Ht : forallb (λ k, bool_decide (k ∉ COMMON_STOP_WORDS)) TECH_SKILLS_list
               = true) by (vm_compute; reflexivity).
  rewrite forallb_forall in Ht. intros Hk%Ht. by apply bool_decide_eq_true in Hk.
Qed.

(** X11.  A target keyword is a word of the job description and never a
    stop word, whichever pass selected it. *)
Theorem target_keywords_no_stop_words (jd_words : list string) (k : string) :
  k ∈ select_target_keywords jd_words →
  k ∈ jd_words ∧ k ∉ COMMON_STOP_WORDS.
Proof.
  intros Hk. split; [by apply select_target_keywords_sub|].
  rewrite select_target_keywords_eq in Hk.
  assert (Hs : k ∈ jd_skills jd_words → k ∉ COMMON_STOP_WORDS).
  { intros [Ht _]%elem_of_list_to_set%list_elem_of_filter.
    by apply tech_skills_not_stop_words. }
  destruct (decide _); [|auto].
  apply elem_of_union in Hk as [?|Hk%elem_of_list_to_set]; [auto|].
  rewrite jd_top_take in Hk. apply (subseteq_take 10), jd_ranking_elem in Hk.
  by apply list_elem_of_filter in Hk as [? _].
Qed.

Lemma target_keywords_no_stop_words_witness :
  "team" ∈ ["with"; "the"; "team"; "and"; "python"]
  ∧ "team" ∉ COMMON_STOP_WORDS.
Proof.
  apply (target_keywords_no_stop_words ["with"; "the"; "team"; "and"; "python"]).
  vm_compute. reflexivity.
Defined.

Lemma jd_skills_token_skills (jd_text : string) :
  jd_skills (clean_text jd_text) ⊆ list_to_set token_skills.
Proof.
  intros k [Ht Hk]%elem_of_list_to_set%list_elem_of_filter.
  apply clean_text_token in Hk as [Hall Hlen].
  apply elem_of_list_to_set, list_elem_of_In, filter_In. split.
  - by apply list_elem_of_In, (elem_of_list_to_set (C:=gset string)).
  - rewrite Hall. by apply Nat.ltb_lt.
Qed.

(** X12.  A job description yields at most 36 target keywords, and a job
    description that names every single-word skill of the lexicon yields
    36. *)
Theorem target_keywords_at_most_36 :
  (∀ jd_text, size (select_target_keywords (clean_text jd_text)) ≤ 36)
  ∧ (∃ jd_text, size (select_target_keywords (clean_text jd_text)) = 36).
Proof.
  split.
  - intros jd_text. rewrite select_target_keywords_eq.
    assert (Hs : size (jd_skills (clean_text jd_text)) ≤ 36).
    { etrans; [apply subseteq_size, jd_skills_token_skills|].
      etrans; [apply size_list_to_set_le|].
      by replace (length token_skills) with 36 by (vm_compute; reflexivity). }
    destruct (decide _) as [Hlt|]; [|done].
    rewrite size_union_alt.
    pose proof (subseteq_size
                  (list_to_set (jd_top (clean_text jd_text))
                     ∖ jd_skills (clean_text jd_text))
                  (list_to_set (jd_top (clean_text jd_text)) : gset string)
                  ltac:(set_solver)) as Hsub.
    pose proof (size_list_to_set_le (jd_top (clean_text jd_text))) as Hl.
    assert (Hlen : length (jd_top (clean_text jd_text)) ≤ 10).
    { rewrite jd_top_take, length_take. lia. }
    lia.
  - exists (Str.join " " token_skills). vm_compute. reflexivity.
Qed.

Lemma jd_top_nil_iff (jd_words : list string) :
  jd_top jd_words = [] ↔ jd_candidates jd_words = [].
Proof.
  rewrite jd_top_take. split.
  - intros Hnil. apply elem_of_nil_inv. intros w Hw%jd_ranking_elem.
    destruct (jd_ranking jd_words) as [|x l]; [by apply elem_of_nil in Hw|done].
  - intros Hnil. apply elem_of_nil_inv. intros w Hw%(subseteq_take 10)%jd_ranking_elem.
    rewrite Hnil in Hw. by apply elem_of_nil in Hw.
Qed.

(** X13.  The target keyword set is empty exactly when every word of the
    tokenized job description is a stop word (in particular when there is
    no word at all). *)
Theorem target_keywords_empty_iff (jd_words : list string) :
  select_target_keywords jd_words = ∅
  ↔ Forall (λ w, w ∈ COMMON_STOP_WORDS) jd_words.
Proof.
  rewrite select_target_keywords_eq, Forall_forall.
  assert (Hc : jd_candidates jd_words = [] ↔ ∀ w, w ∈ jd_words → w ∈ COMMON_STOP_WORDS).
  { unfold jd_candidates. split.
    - intros Hnil w Hw. destruct (decide (w ∈ COMMON_STOP_WORDS)) as [|Hn]; [done|].
      assert (w ∈ filter (λ w, w ∉ COMMON_STOP_WORDS) jd_words)
        by by apply list_elem_of_filter.
      rewrite Hnil in H. by apply elem_of_nil in H.
    - intros Hall. apply elem_of_nil_inv. intros w [Hn Hw]%list_elem_of_filter. auto. }
  rewrite <- Hc, <- jd_top_nil_iff. split.
  - intros He. destruct (decide _) as [_|Hge].
    + apply empty_union_L in He as [_ He].
      destruct (jd_top jd_words) as [|x l]; [done|].
      rewrite list_to_set_cons in He. set_solver.
    + rewrite He, size_empty in Hge. lia.
  - intros Hnil. apply jd_top_nil_iff in Hnil as Hcand.
    assert (Hs : jd_skills jd_words = ∅).
    { apply set_eq. intros k. split; [|set_solver].
      intros [Ht Hk]%elem_of_list_to_set%list_elem_of_filter.
      apply tech_skills_not_stop_words in Ht. destruct Ht.
      by apply (proj1 Hc Hcand). }
    rewrite Hs, Hnil, size_empty. rewrite decide_True by lia. set_solver.
Qed.

(** ** Tips, continued *)

(** X14.  Only the first three missing keywords reach the tips: any further
    missing keyword changes nothing. *)
Theorem generate_optimization_tips_take_3 (score : Z) (missing : list string) :
  generate_optimization_tips score missing
  = generate_optimization_tips score (take 3 missing).
Proof.
  unfold generate_optimization_tips.
  by destruct missing as [|a [|b [|c l]]].
Qed.

(** ** The phone check *)

Lemma has_phone_intro (pre op area cl sep1 mid sep2 last post : string) :
  phone_at op area cl sep1 mid sep2 last →
  has_phone (pre +:+ op +:+ area +:+ cl +:+ sep1 +:+ mid +:+ sep2 +:+ last +:+ post)
  = true.
Proof.
  intros ([Hop1 Hop] & [Ha3 Ha] & [Hcl1 Hcl] & [Hs1l Hs1] & [Hm3 Hm]
          & [Hs2l Hs2] & [Hl4 Hl]).
  unfold has_phone. apply search_spec.
  exists pre, (op +:+ area +:+ cl +:+ sep1 +:+ mid +:+ sep2 +:+ last), post. split.
  { repeat (rewrite ?app_assoc_s, ?app_empty_r; simpl). done. }
  cbn [phone_re Re.cat foldr Re.matches Re.opt Re.times Re.within].
  exists op, (area +:+ cl +:+ sep1 +:+ mid +:+ sep2 +:+ last).
  split; [done|]. split; [split_and!; [done|lia|done]|].
  exists area, (cl +:+ sep1 +:+ mid +:+ sep2 +:+ last).
  split; [done|]. split; [split_and!; [done|lia|lia]|].
  exists cl, (sep1 +:+ mid +:+ sep2 +:+ last).
  split; [done|]. split; [split_and!; [done|lia|done]|].
  exists sep1, (mid +:+ sep2 +:+ last).
  split; [done|]. split; [split_and!; [done|lia|done]|].
  exists mid, (sep2 +:+ last).
  split; [done|]. split; [split_and!; [done|lia|lia]|].
  exists sep2, last.
  split; [done|]. split; [split_and!; [done|lia|done]|].
  exists last, "". split; [by rewrite app_empty_r|]. split; [|done].
  split_and!; [done|lia|lia].
Qed.

Lemma has_phone_elim (text : string) :
  has_phone text = true →
  ∃ pre op area cl sep1 mid sep2 last post,
    text = pre +:+ op +:+ area +:+ cl +:+ sep1 +:+ mid +:+ sep2 +:+ last +:+ post
    ∧ phone_at op area cl sep1 mid sep2 last.
Proof.
  unfold has_phone. rewrite search_spec. intros (pre & w & post & -> & Hm).
  cbn [phone_re Re.cat foldr Re.matches Re.opt Re.times Re.within] in Hm.
  destruct Hm as (op & ? & -> & (Hop & _ & Hop1)
                  & area & ? & -> & (Ha & Ha3 & Ha3')
                  & cl & ? & -> & (Hcl & _ & Hcl1)
                  & sep1 & ? & -> & (Hs1 & _ & Hs1l)
                  & mid & ? & -> & (Hmid & Hm3 & Hm3')
                  & sep2 & ? & -> & (Hs2 & _ & Hs2l)
                  & last & ? & -> & (Hl & Hl4 & Hl4') & ->).
  exists pre, op, area, cl, sep1, mid, sep2, last, post. split.
  { repeat (rewrite ?app_assoc_s, ?app_empty_r; simpl). done. }
  unfold phone_at, optional, digits. split_and!; (done || lia).
Qed.

(** X15.  The Phone Number check passes exactly when the text contains an
    optional [(], 3 digits, an optional [)], an optional hyphen, dot or
    white-space character, 3 digits, again such an optional separator, and
    4 digits.  The two parentheses are optional independently of each
    other, and nothing is required before or after the match. *)
Theorem has_phone_spec (text : string) :
  has_phone text = true ↔
  ∃ pre op area cl sep1 mid sep2 last post,
    text = pre +:+ op +:+ area +:+ cl +:+ sep1 +:+ mid +:+ sep2 +:+ last +:+ post
    ∧ phone_at op area cl sep1 mid sep2 last.
Proof.
  split; [apply has_phone_elim|].
  intros (pre & op & area & cl & sep1 & mid & sep2 & last & post & -> & H).
  by apply has_phone_intro.
Qed.

Lemma split_length (s : string) (n : nat) :
  n ≤ String.length s → ∃ a b, s = a +:+ b ∧ String.length a = n.
Proof.
  revert s. induction n as [|n IH]; intros s Hn; [by exists "", s|].
  destruct s as [|c s]; [simpl in Hn; lia|]. simpl in Hn.
  destruct (IH s ltac:(lia)) as (a & b & -> & Ha). exists (String c a), b.
  simpl. by rewrite Ha.
Qed.

(** X16.  Any run of ten digits passes the Phone Number check, wherever it
    stands in the text, also inside a longer number. *)
Theorem has_phone_ten_digits (pre number post : string) :
  digits 10 number → has_phone (pre +:+ number +:+ post) = true.
Proof.
  intros [Hlen Hall].
  destruct (split_length number 3 ltac:(lia)) as (area & rest & -> & Ha).
  rewrite length_append in Hlen.
  destruct (split_length rest 3 ltac:(lia)) as (mid & last & -> & Hm).
  rewrite length_append in Hlen.
  rewrite !all_app in Hall. apply andb_true_iff in Hall as [Haa Hall].
  apply andb_true_iff in Hall as [Hma Hla].
  pose proof (has_phone_intro pre "" area "" "" mid "" last post) as H.
  simpl in H. rewrite !app_assoc_s. apply H.
  unfold phone_at, optional, digits. simpl. split_and!; (done || lia).
Qed.

Lemma has_phone_ten_digits_witness :
  has_phone ("Card no. " +:+ "4929123456" +:+ "781234") = true.
Proof. apply has_phone_ten_digits. split; reflexivity. Defined.

(** ** Literal words *)

Lemma word_lower (c : ascii) : Chr.word (Chr.lower c) = Chr.word c.
Proof. each_chr c. Qed.

Lemma first_chr_lower (s : string) :
  Re.first_chr (Str.lower s) = Chr.lower <$> Re.first_chr s.
Proof. by destruct s. Qed.

Lemma last_chr_lower (prev : option ascii) (s : string) :
  Re.last_chr (Chr.lower <$> prev) (Str.lower s) = Chr.lower <$> Re.last_chr prev s.
Proof. revert prev. induction s as [|c s IH]; intros prev; [done|]. apply (IH (Some c)). Qed.

Lemma is_word_lower (o : option ascii) : Re.is_word (Chr.lower <$> o) = Re.is_word o.
Proof. destruct o; [apply word_lower|done]. Qed.

Lemma last_chr_nonempty (prev prev' : option ascii) (w : string) :
  w ≠ "" → Re.last_chr prev w = Re.last_chr prev' w.
Proof. by destruct w. Qed.

Lemma matches_liti (s : string) (prev : option ascii) (w rest : string) :
  Re.matches (Re.liti s) prev w rest ↔ Str.lower w = Str.lower s.
Proof.
  revert prev w. induction s as [|c s IH]; intros prev w; cbn [Re.liti Re.matches Re.chri].
  - by rewrite lower_empty_iff.
  - split.
    + intros (? & w2 & -> & (x & -> & Hx%bool_decide_eq_true) & Hm%IH).
      simpl. by rewrite Hx, Hm.
    + destruct w as [|x w]; [done|]. simpl. intros [= Hx Hw].
      exists (String x ""), w. split; [done|]. split.
      * exists x. by rewrite bool_decide_eq_true.
      * by apply IH.
Qed.

Lemma matches_any_liti (l : list string) (prev : option ascii) (w rest : string) :
  Re.matches (Re.any_of (Re.liti <$> l)) prev w rest
  ↔ ∃ s, s ∈ l ∧ Str.lower w = Str.lower s.
Proof.
  induction l as [|s l IH].
  - cbn. split; [by intros (? & _ & ?)|]. by intros (? & ?%elem_of_nil & _).
  - destruct l as [|s' l].
    + cbn [fmap list_fmap Re.any_of]. rewrite matches_liti. split.
      * intros Hw. exists s. split; [apply list_elem_of_here|done].
      * by intros (? & ->%list_elem_of_singleton & ?).
    + change (Re.any_of (Re.liti <$> s :: s' :: l))
        with (Re.Alt (Re.liti s) (Re.any_of (Re.liti <$> s' :: l))).
      cbn [Re.matches]. rewrite matches_liti, IH. split.
      * intros [Hw|(x & Hx & Hw)].
        -- exists s. split; [apply list_elem_of_here|done].
        -- exists x. split; [by apply list_elem_of_further|done].
      * intros (x & [->|Hx]%elem_of_cons & Hw); [by left|]. right. by exists x.
Qed.

(** A word made of lower-case letters and digits starts and ends with a
    word character, and so does every text that lower-cases to it. *)
Lemma lowers_to_word (w v : string) (prev : option ascii) (x : string) :
  Str.lower w = v → v ≠ "" → Str.all Chr.lower_alnum v = true →
  Re.is_word (Re.first_chr (w +:+ x)) = true
  ∧ Re.is_word (Re.last_chr prev w) = true.
Proof.
  intros <- Hne Hall.
  assert (Hw : w ≠ "") by by rewrite <- lower_empty_iff.
  split.
  - rewrite first_chr_app by done. rewrite <- is_word_lower, <- first_chr_lower.
    destruct (Str.lower w) as [|c s]; [done|]. cbn in *.
    apply andb_true_iff in Hall as [Hc _]. revert Hc. clear. each_chr c.
  - rewrite (last_chr_nonempty prev None) by done.
    rewrite <- is_word_lower.
    change (Chr.lower <$> Re.last_chr None w)
      with (Chr.lower <$> Re.last_chr (@None ascii) w).
    rewrite <- (last_chr_lower None w).
    destruct (last_chr_all Chr.lower_alnum (Chr.lower <$> None) (Str.lower w))
      as (c & -> & Hc); [by rewrite lower_empty_iff|done|].
    revert Hc. clear. cbn. each_chr c.
Qed.

Lemma action_verbs_plain :
  Forall (λ v, v ≠ "" ∧ Str.all Chr.lower_alnum v = true ∧ Str.lower v = v)
         action_verbs.
Proof. repeat constructor; done. Qed.

Lemma metric_units_plain :
  Forall (λ v, v ≠ "" ∧ Str.all Chr.lower_alnum v = true ∧ Str.lower v = v)
         metric_units.
Proof. repeat constructor; done. Qed.

(** ** The action-verb check *)

Lemma has_verbs_intro (pre w post : string) :
  Str.lower w ∈ action_verbs →
  Re.is_word (Re.last_chr None pre) = false →
  Re.is_word (Re.first_chr post) = false →
  has_verbs (pre +:+ w +:+ post) = true.
Proof.
  intros Hw Hpre Hpost. unfold has_verbs. apply search_spec.
  exists pre, w, post. split; [done|].
  pose proof action_verbs_plain as Hplain. rewrite Forall_forall in Hplain.
  destruct (Hplain _ Hw) as (Hne & Hall & Hlow).
  change verbs_re
    with (Re.cat [Re.Bnd; Re.any_of (Re.liti <$> action_verbs); Re.Bnd]).
  cbn [Re.cat foldr Re.matches].
  exists "", w. split; [done|]. split.
  { split; [done|]. unfold Re.boundary. simpl.
    destruct (lowers_to_word w _ None post eq_refl Hne Hall) as [-> _].
    by rewrite Hpre. }
  exists w, "". split; [by rewrite app_empty_r|]. split.
  { apply matches_any_liti. exists (Str.lower w). split; [done|].
    by rewrite lower_idem. }
  exists "", "". split; [done|]. split; [|done]. split; [done|].
  unfold Re.boundary. simpl.
  destruct (lowers_to_word w _ (Re.last_chr None pre) post eq_refl Hne Hall)
    as [_ ->].
  by rewrite Hpost.
Qed.

Lemma has_verbs_elim (text : string) :
  has_verbs text = true →
  ∃ pre w post,
    text = pre +:+ w +:+ post
    ∧ Str.lower w ∈ action_verbs
    ∧ Re.is_word (Re.last_chr None pre) = false
    ∧ Re.is_word (Re.first_chr post) = false.
Proof.
  unfold has_verbs. rewrite search_spec. intros (pre & w & post & -> & Hm).
  change verbs_re
    with (Re.cat [Re.Bnd; Re.any_of (Re.liti <$> action_verbs); Re.Bnd]) in Hm.
  cbn [Re.cat foldr Re.matches] in Hm.
  destruct Hm as (? & ? & -> & [-> Hstart] & v & ? & -> & Hv
                  & ? & ? & -> & [-> Hend] & ->).
  apply matches_any_liti in Hv as (s & Hs & Hv).
  pose proof action_verbs_plain as Hplain. rewrite Forall_forall in Hplain.
  destruct (Hplain _ Hs) as (Hne & Hall & Hlow). rewrite Hlow in Hv.
  exists pre, v, post. simpl in *. rewrite app_empty_r in *.
  split; [done|]. split; [by rewrite Hv|].
  destruct (lowers_to_word v s (Re.last_chr None pre) post Hv Hne Hall)
    as [Hfirst Hlast].
  unfold Re.boundary in Hstart, Hend. rewrite Hfirst in Hstart. rewrite Hlast in Hend.
  split.
  - by destruct (Re.is_word (Re.last_chr None pre)).
  - by destruct (Re.is_word (Re.first_chr post)).
Qed.

(** X17.  The Action Verbs check passes exactly when the text contains one
    of the ten verbs, in any mix of upper and lower case, with no word
    character directly before it and none directly after it. *)
Theorem has_verbs_spec (text : string) :
  has_verbs text = true ↔
  ∃ pre w post,
    text = pre +:+ w +:+ post
    ∧ Str.lower w ∈ action_verbs
    ∧ Re.is_word (Re.last_chr None pre) = false
    ∧ Re.is_word (Re.first_chr post) = false.
Proof.
  split; [apply has_verbs_elim|].
  intros (pre & w & post & -> & Hw & Hpre & Hpost). by apply has_verbs_intro.
Qed.

(** ** The metrics check *)

Lemma snoc_all (p : ascii → bool) (w : string) :
  w ≠ "" → Str.all p w = true →
  ∃ w' c, w = w' +:+ String c "" ∧ p c = true.
Proof.
  induction w as [|x w IH]; [done|]. intros _ [Hx Hw]%andb_true_iff.
  destruct w as [|y w]; [by exists "", x|].
  destruct (IH ltac:(done) Hw) as (w' & c & -> & Hc). by exists (String x w'), c.
Qed.

Lemma digit_word (c : ascii) : Chr.digit c = true → Chr.word c = true.
Proof. each_chr c. Qed.

(** [\d+%|\$\d+] is found exactly where a digit is directly followed by
    a percent sign or a dollar sign directly by a digit. *)
Lemma search_metrics_re1 (text : string) :
  Re.search metrics_re1 text = true ↔
  (∃ pre d post, text = pre +:+ String d (String "%" post) ∧ Chr.digit d = true)
  ∨ (∃ pre d post, text = pre +:+ String "$" (String d post) ∧ Chr.digit d = true).
Proof.
  rewrite search_spec. split.
  - intros (pre & w & post & -> & Hm).
    cbn [metrics_re1 Re.cat foldr Re.matches Re.plus Re.chr Re.within] in Hm.
    destruct Hm as [(ds & ? & -> & (Hds & Hlen & _)
                     & ? & ? & -> & (? & -> & ->%bool_decide_eq_true) & ->)
                   |(? & ? & -> & (? & -> & ->%bool_decide_eq_true)
                     & ds & ? & -> & (Hds & Hlen & _) & ->)].
    + left. apply length_pos_nonempty in Hlen.
      destruct (snoc_all _ _ Hlen Hds) as (ds' & d & -> & Hd).
      exists (pre +:+ ds'), d, post. split; [|done].
      repeat (rewrite ?app_assoc_s, ?app_empty_r; simpl). done.
    + right. destruct ds as [|d ds]; [simpl in Hlen; lia|].
      cbn [Str.all] in Hds. apply andb_true_iff in Hds as [Hd _].
      exists pre, d, (ds +:+ post). split; [|done].
      repeat (rewrite ?app_assoc_s, ?app_empty_r; simpl). done.
  - intros [(pre & d & post & -> & Hd)|(pre & d & post & -> & Hd)].
    + exists pre, (String d "%"), post. split; [done|]. left.
      cbn [Re.cat foldr Re.matches Re.plus Re.chr Re.within].
      exists (String d ""), "%". split; [done|]. split.
      { simpl. rewrite Hd. split_and!; (done || lia). }
      exists "%", "". split; [done|]. split; [|done].
      exists "%"%char. by rewrite bool_decide_eq_true.
    + exists pre, (String "$" (String d "")), post. split; [done|]. right.
      cbn [Re.cat foldr Re.matches Re.plus Re.chr Re.within].
      exists "$", (String d ""). split; [done|]. split.
      { exists "$"%char. by rewrite bool_decide_eq_true. }
      exists (String d ""), "". split; [done|]. split; [|done].
      simpl. rewrite Hd. split_and!; (done || lia).
Qed.

(** [\b\d+\s+(users|...)], case-insensitive: a number that no word
    character precedes, white space, and one of the units. *)
Lemma search_metrics_re2 (text : string) :
  Re.search metrics_re2 text = true ↔
  ∃ pre n ws u post,
    text = pre +:+ n +:+ ws +:+ u +:+ post
    ∧ Re.is_word (Re.last_chr None pre) = false
    ∧ n ≠ "" ∧ Str.all Chr.digit n = true
    ∧ ws ≠ "" ∧ Str.all Chr.isspace ws = true
    ∧ Str.lower u ∈ metric_units.
Proof.
  rewrite search_spec.
  change metrics_re2
    with (Re.cat [Re.Bnd; Re.plus Chr.digit; Re.plus Chr.isspace;
                  Re.any_of (Re.liti <$> metric_units)]).
  split.
  - intros (pre & w & post & -> & Hm).
    cbn [Re.cat foldr Re.matches Re.plus Re.within] in Hm.
    destruct Hm as (? & ? & -> & [-> Hstart] & n & ? & -> & (Hn & Hn1 & _)
                    & ws & ? & -> & (Hws & Hws1 & _) & u & ? & -> & Hu & ->).
    apply matches_any_liti in Hu as (s & Hs & Hu).
    pose proof metric_units_plain as Hplain. rewrite Forall_forall in Hplain.
    destruct (Hplain _ Hs) as (_ & _ & Hlow). rewrite Hlow in Hu.
    apply length_pos_nonempty in Hn1, Hws1.
    exists pre, n, ws, u, post. split.
    { repeat (rewrite ?app_assoc_s, ?app_empty_r; simpl). done. }
    split_and!; try done; [|by rewrite Hu].
    revert Hstart. unfold Re.boundary. simpl. rewrite !app_assoc_s.
    rewrite first_chr_app by done. destruct n as [|d n]; [done|].
    cbn in Hn |- *. apply andb_true_iff in Hn as [Hd _].
    rewrite (digit_word d Hd). by destruct (Re.is_word (Re.last_chr None pre)).
  - intros (pre & n & ws & u & post & -> & Hpre & Hn1 & Hn & Hws1 & Hws & Hu).
    exists pre, (n +:+ ws +:+ u), post. split.
    { repeat (rewrite ?app_assoc_s, ?app_empty_r; simpl). done. }
    cbn [Re.cat foldr Re.matches Re.plus Re.within].
    exists "", (n +:+ ws +:+ u). split; [done|]. split.
    { split; [done|]. unfold Re.boundary. simpl. rewrite !app_assoc_s.
      rewrite first_chr_app by done. destruct n as [|d n]; [done|].
      cbn in Hn |- *. apply andb_true_iff in Hn as [Hd _].
      by rewrite (digit_word d Hd), Hpre. }
    exists n, (ws +:+ u). split; [done|]. split.
    { split_and!; [done|by apply length_pos_nonempty|done]. }
    exists ws, u. split; [done|]. split.
    { split_and!; [done|by apply length_pos_nonempty|done]. }
    exists u, "". split; [by rewrite app_empty_r|]. split; [|done].
    apply matches_any_liti. exists (Str.lower u). split; [done|].
    by rewrite lower_idem.
Qed.

(** X18.  The Metrics/Numbers check passes exactly when the text contains a
    digit directly followed by [%], or a [$] directly followed by a digit,
    or a number that no word character precedes, followed by white space
    and, in any case, one of users, clients, percent, increase,
    reduction. *)
Theorem has_metrics_spec (text : string) :
  has_metrics text = true ↔
  (∃ pre d post, text = pre +:+ String d (String "%" post) ∧ Chr.digit d = true)
  ∨ (∃ pre d post, text = pre +:+ String "$" (String d post) ∧ Chr.digit d = true)
  ∨ (∃ pre n ws u post,
       text = pre +:+ n +:+ ws +:+ u +:+ post
       ∧ Re.is_word (Re.last_chr None pre) = false
       ∧ n ≠ "" ∧ Str.all Chr.digit n = true
       ∧ ws ≠ "" ∧ Str.all Chr.isspace ws = true
       ∧ Str.lower u ∈ metric_units).
Proof.
  unfold has_metrics.
  rewrite orb_true_iff, search_metrics_re1, search_metrics_re2. tauto.
Qed.

(** ** Texts on which checks must fail *)

Lemma all_conflict (p : ascii → bool) (b : string) :
  Str.all (λ x, negb (p x)) b = true → Str.all p b = true → b ≠ "" → False.
Proof.
  destruct b as [|x b]; [done|]. cbn.
  intros [Hx _]%andb_true_iff [Hx' _]%andb_true_iff _. by rewrite Hx' in Hx.
Qed.

(** Splits [Str.all q (a + b + ...) = true] into one fact per part. *)
Ltac all_parts H :=
  rewrite ?all_app in H; cbn [Str.all] in H; rewrite ?all_app in H;
  repeat match goal with
         | H' : _ && _ = true |- _ => apply andb_true_iff in H' as [? ?]
         end.

(** X19.  A text without any digit fails the Phone Number check and the
    Metrics/Numbers check. *)
Theorem no_digit_no_phone_no_metrics (text : string) :
  Str.all (λ c, negb (Chr.digit c)) text = true →
  has_phone text = false ∧ has_metrics text = false.
Proof.
  intros Hnd. split.
  - destruct (has_phone text) eqn:Hp; [|done]. exfalso.
    apply has_phone_elim in Hp
      as (pre & op & area & cl & s1 & mid & s2 & last & post & -> & H).
    destruct H as (_ & [Ha3 Ha] & _). all_parts Hnd.
    apply (all_conflict Chr.digit area); [done|done|].
    by apply (nonempty_of_length _ 2); rewrite Ha3.
  - destruct (has_metrics text) eqn:Hm; [|done]. exfalso.
    unfold has_metrics in Hm. apply orb_true_iff in Hm as [Hm|Hm].
    + apply search_metrics_re1 in Hm
        as [(pre & d & post & -> & Hd)|(pre & d & post & -> & Hd)];
        all_parts Hnd; congruence || (rewrite Hd in *; done).
    + apply search_metrics_re2 in Hm
        as (pre & n & ws & u & post & -> & _ & Hn1 & Hn & _).
      all_parts Hnd. by apply (all_conflict Chr.digit n).
Qed.

Lemma no_digit_no_phone_no_metrics_witness :
  has_phone "Led a large team; doubled revenue" = false
  ∧ has_metrics "Led a large team; doubled revenue" = false.
Proof. apply no_digit_no_phone_no_metrics. reflexivity. Defined.

(** X20.  A text without [@], or without a dot, fails the Contact Email
    check. *)
Theorem no_at_or_dot_no_email (text : string) :
  Str.all (λ c, negb (is_chr "@" c)) text = true
  ∨ Str.all (λ c, negb (is_chr "." c)) text = true →
  has_email text = false.
Proof.
  intros Hno. destruct (has_email text) eqn:He; [|done]. exfalso.
  unfold has_email in He. apply search_spec in He as (pre & w & post & -> & Hm).
  cbn [email_re Re.cat foldr Re.matches Re.plus Re.range Re.chr Re.within] in Hm.
  destruct Hm as (? & w1 & -> & [-> _] & loc & w2 & -> & _
                  & ? & w3 & -> & (? & -> & ->%bool_decide_eq_true)
                  & domain & w4 & -> & _
                  & ? & w5 & -> & (? & -> & ->%bool_decide_eq_true) & _).
  destruct Hno as [Hno|Hno]; simpl in Hno; all_parts Hno;
    match goal with H : negb (is_chr _ _) = true |- _ => by vm_compute in H end.
Qed.

Lemma no_at_or_dot_no_email_witness :
  has_email "reach me at jane(at)example.com" = false.
Proof. apply no_at_or_dot_no_email. left. reflexivity. Defined.

(** ** Letter case *)

Lemma all_lower (p : ascii → bool) (s : string) :
  (∀ c, p (Chr.lower c) = p c) → Str.all p (Str.lower s) = Str.all p s.
Proof. intros Hp. induction s as [|c s IH]; simpl; [done|]. by rewrite Hp, IH. Qed.

Lemma boundary_lower (prev : option ascii) (s : string) :
  Re.boundary (Chr.lower <$> prev) (Str.lower s) = Re.boundary prev s.
Proof. unfold Re.boundary. by rewrite first_chr_lower, !is_word_lower. Qed.

(** A pattern whose classes do not tell a character from its lower-case
    form matches a text exactly when it matches the lower-cased text. *)
Lemma matches_lower (r : Re.t) :
  lower_invariant r →
  ∀ prev w rest,
    Re.matches r prev w rest
    ↔ Re.matches r (Chr.lower <$> prev) (Str.lower w) (Str.lower rest).
Proof.
  induction r as [| |p|p lo hi|r1 IH1 r2 IH2|r1 IH1 r2 IH2]; intros Hinv prev w rest;
    cbn [Re.matches lower_invariant] in *.
  - by rewrite lower_empty_iff.
  - by rewrite lower_empty_iff, boundary_lower.
  - split.
    + intros (c & -> & Hc). exists (Chr.lower c). by rewrite Hinv.
    + intros (c & Hw & Hc). destruct w as [|x [|y w]]; [done| |done].
      simpl in Hw. injection Hw as <-. exists x. by rewrite <- Hinv.
  - by rewrite all_lower, length_lower.
  - destruct Hinv as [H1 H2]. split.
    + intros (w1 & w2 & -> & Hm1 & Hm2). exists (Str.lower w1), (Str.lower w2).
      apply (proj1 (IH1 H1 _ _ _)) in Hm1. apply (proj1 (IH2 H2 _ _ _)) in Hm2.
      rewrite lower_app in Hm1. rewrite <- last_chr_lower in Hm2.
      split; [apply lower_app|done].
    + intros (w1' & w2' & Hw & Hm1 & Hm2).
      apply lower_split in Hw as (w1 & w2 & -> & <- & <-). exists w1, w2.
      rewrite <- lower_app in Hm1. rewrite last_chr_lower in Hm2.
      apply (proj2 (IH1 H1 _ _ _)) in Hm1. apply (proj2 (IH2 H2 _ _ _)) in Hm2.
      done.
  - destruct Hinv as [H1 H2]. by rewrite (IH1 H1), (IH2 H2).
Qed.

Lemma search_lower (r : Re.t) (text : string) :
  lower_invariant r → Re.search r (Str.lower text) = Re.search r text.
Proof.
  intros Hinv. apply eq_true_iff_eq. rewrite !search_spec. split.
  - intros (pre' & w' & post' & Ht & Hm).
    apply lower_split in Ht as (pre & rest & -> & <- & Ht).
    apply lower_split in Ht as (w & post & -> & <- & <-).
    exists pre, w, post. split; [done|].
    rewrite (last_chr_lower None) in Hm. by apply (proj2 (matches_lower r Hinv _ _ _)).
  - intros (pre & w & post & -> & Hm).
    exists (Str.lower pre), (Str.lower w), (Str.lower post).
    rewrite !lower_app. split; [done|].
    rewrite (last_chr_lower None). by apply (proj1 (matches_lower r Hinv _ _ _)).
Qed.

Lemma lower_invariant_liti (s : string) : lower_invariant (Re.liti s).
Proof.
  induction s as [|c s IH]; cbn; [done|]. split; [|done].
  intros x. by rewrite chr_lower_idem.
Qed.

Lemma lower_invariant_any_liti (l : list string) :
  lower_invariant (Re.any_of (Re.liti <$> l)).
Proof.
  induction l as [|s [|s' l] IH]; [by intros c|apply lower_invariant_liti|].
  split; [apply lower_invariant_liti|apply IH].
Qed.

Lemma lower_invariant_patterns :
  lower_invariant email_re ∧ lower_invariant phone_re ∧ lower_invariant verbs_re
  ∧ lower_invariant metrics_re1 ∧ lower_invariant metrics_re2.
Proof.
  split_and!.
  - cbn [email_re Re.cat foldr lower_invariant Re.plus Re.chr Re.range].
    split_and!; try done; intros c; each_chr c.
  - cbn [phone_re Re.cat foldr lower_invariant Re.opt Re.times].
    split_and!; try done; intros c; each_chr c.
  - change verbs_re
      with (Re.cat [Re.Bnd; Re.any_of (Re.liti <$> action_verbs); Re.Bnd]).
    cbn [Re.cat foldr lower_invariant]. split_and!; try done.
    apply lower_invariant_any_liti.
  - cbn [metrics_re1 Re.cat foldr lower_invariant Re.plus Re.chr].
    split_and!; try done; intros c; each_chr c.
  - change metrics_re2
      with (Re.cat [Re.Bnd; Re.plus Chr.digit; Re.plus Chr.isspace;
                    Re.any_of (Re.liti <$> metric_units)]).
    cbn [Re.cat foldr lower_invariant Re.plus]. split_and!; try done.
    + intros c; each_chr c.
    + intros c; each_chr c.
    + apply lower_invariant_any_liti.
Qed.

Lemma check_formatting_rules_lower (text : string) :
  check_formatting_rules (Str.lower text) = check_formatting_rules text.
Proof.
  destruct lower_invariant_patterns as (He & Hp & Hv & Hm1 & Hm2).
  unfold check_formatting_rules, has_email, has_phone, has_verbs, has_metrics.
  by rewrite !search_lower.
Qed.

Lemma clean_text_lower (text : string) : clean_text (Str.lower text) = clean_text text.
Proof. unfold clean_text. by rewrite lower_idem. Qed.

(** X21.  The analysis does not depend on letter case: lower-casing the
    resume, the job description or both leaves the whole outcome, checks
    and tips included, unchanged. *)
Theorem analyze_case_insensitive (order : gset string → list string)
    (resume_text jd_text : string) :
  analyze order (Str.lower resume_text) jd_text = analyze order resume_text jd_text
  ∧ analyze order resume_text (Str.lower jd_text) = analyze order resume_text jd_text.
Proof.
  unfold analyze, analyze_targets.
  rewrite !clean_text_lower, lower_idem, check_formatting_rules_lower.
  rewrite (bool_decide_ext _ _ (lower_empty_iff resume_text)).
  by rewrite (bool_decide_ext _ _ (lower_empty_iff jd_text)).
Qed.

(** ** The order of enumeration *)

Lemma generate_optimization_tips_nth (score : Z) (missing : list string) (i : nat) :
  missing ≠ [] →
  generate_optimization_tips score missing !! i
  = [ (if decide (score < 50)%Z then tip_low
       else if decide (score < 80)%Z then tip_mid else tip_high);
      tip_missing (take 3 missing); tip_verbs; tip_numbers ] !! i.
Proof.
  intros Hm. unfold generate_optimization_tips.
  destruct missing as [|k missing]; [done|].
  by destruct (decide (score < 50)%Z); [|destruct (decide (score < 80)%Z)].
Qed.

Lemma generate_optimization_tips_length (score : Z) (missing : list string) :
  length (generate_optimization_tips score missing)
  = if decide (missing = []) then 3 else 4.
Proof.
  unfold generate_optimization_tips.
  by destruct missing; destruct (decide (score < 50)%Z);
    [|destruct (decide (score < 80)%Z)| |destruct (decide (score < 80)%Z)].
Qed.

(** X22.  The order in which the target set is enumerated shows in the
    order of the keyword lists and in the tip on missing keywords, which
    names the first three of the missing list, and nowhere else.  Two
    analyses of the same texts give the same score, the same found and the
    same missing keywords up to order, the same skill counts, the same
    format checks, and tips that agree in number and at every position but
    the second; when nothing is missing the tips are the same. *)
Theorem analyze_order_independent (order1 order2 : gset string → list string)
    (resume_text jd_text : string) :
  enumerates order1 → enumerates order2 →
  match analyze order1 resume_text jd_text, analyze order2 resume_text jd_text with
  | Ok r1, Ok r2 =>
      score r1 = score r2
      ∧ found_keywords r1 ≡ₚ found_keywords r2
      ∧ missing_keywords r1 ≡ₚ missing_keywords r2
      ∧ hard_skills_count r1 = hard_skills_count r2
      ∧ soft_skills_count r1 = soft_skills_count r2
      ∧ format_checks r1 = format_checks r2
      ∧ length (tips r1) = length (tips r2)
      ∧ (∀ i, i ≠ 1 → tips r1 !! i = tips r2 !! i)
      ∧ (missing_keywords r1 = [] → tips r1 = tips r2)
      ∧ (missing_keywords r1 ≠ [] →
         tips r1 !! 1 = Some (tip_missing (take 3 (missing_keywords r1)))
         ∧ tips r2 !! 1 = Some (tip_missing (take 3 (missing_keywords r2))))
  | BadRequest e1, BadRequest e2 => e1 = e2
  | _, _ => False
  end.
Proof.
  intros H1 H2.
  destruct (decide (resume_text ≠ "" ∧ jd_text ≠ "")) as [[Hr Hj]|Hempty].
  - destruct (analyze_Ok order1 resume_text jd_text H1 Hr Hj) as [r1 Hok1].
    destruct (analyze_Ok order2 resume_text jd_text H2 Hr Hj) as [r2 Hok2].
    rewrite Hok1, Hok2.
    apply analyze_Ok_inv in Hok1
      as (_ & _ & _ & Hf1 & Hm1 & Hs1 & Hh1 & Hsoft1 & Hc1 & Ht1); [|done].
    apply analyze_Ok_inv in Hok2
      as (_ & _ & _ & Hf2 & Hm2 & Hs2 & Hh2 & Hsoft2 & Hc2 & Ht2); [|done].
    assert (Hp : order1 (select_target_keywords (clean_text jd_text))
                 ≡ₚ order2 (select_target_keywords (clean_text jd_text))).
    { by rewrite (H1 _), (H2 _). }
    assert (Hf : found_keywords r1 ≡ₚ found_keywords r2).
    { by rewrite Hf1, Hf2, Hp. }
    assert (Hm : missing_keywords r1 ≡ₚ missing_keywords r2).
    { by rewrite Hm1, Hm2, Hp. }
    assert (Hs : score r1 = score r2).
    { by rewrite Hs1, Hs2, Hf, Hp. }
    assert (Hnil : missing_keywords r1 = [] ↔ missing_keywords r2 = []).
    { split; intros E; rewrite E in Hm;
        [by apply Permutation_nil_l in Hm|by apply Permutation_nil_r in Hm]. }
    rewrite Ht1, Ht2, <- Hs.
    split_and!; [done|done|done| | |congruence| | | |].
    + by rewrite Hh1, Hh2, Hf.
    + by rewrite Hsoft1, Hsoft2, Hf.
    + rewrite !generate_optimization_tips_length.
      destruct (decide (missing_keywords r1 = [])) as [E|E].
      * by rewrite decide_True by by apply Hnil.
      * by rewrite decide_False by by rewrite <- Hnil.
    + intros i Hi. destruct (decide (missing_keywords r1 = [])) as [E|E].
      * by rewrite E, (proj1 Hnil E).
      * rewrite !generate_optimization_tips_nth by by rewrite <- ?Hnil.
        by destruct i as [|[|i]].
    + intros E. by rewrite E, (proj1 Hnil E).
    + intros E. by rewrite !generate_optimization_tips_nth by by rewrite <- ?Hnil.
  - unfold analyze.
    assert (He : bool_decide (resume_text = "") || bool_decide (jd_text = "") = true).
    { apply orb_true_iff. rewrite !bool_decide_eq_true.
      destruct (decide (resume_text = "")); [by left|].
      destruct (decide (jd_text = "")); [by right|]. by destruct Hempty. }
    by rewrite He.
Qed.

Lemma analyze_order_independent_witness :
  match analyze elements "Built React apps" "Python, React and Docker",
        analyze (λ S, reverse (elements S)) "Built React apps"
                "Python, React and Docker" with
  | Ok r1, Ok r2 =>
      score r1 = score r2
      ∧ found_keywords r1 ≡ₚ found_keywords r2
      ∧ missing_keywords r1 ≡ₚ missing_keywords r2
      ∧ hard_skills_count r1 = hard_skills_count r2
      ∧ soft_skills_count r1 = soft_skills_count r2
      ∧ format_checks r1 = format_checks r2
      ∧ length (tips r1) = length (tips r2)
      ∧ (∀ i, i ≠ 1 → tips r1 !! i = tips r2 !! i)
      ∧ (missing_keywords r1 = [] → tips r1 = tips r2)
      ∧ (missing_keywords r1 ≠ [] →
         tips r1 !! 1 = Some (tip_missing (take 3 (missing_keywords r1)))
         ∧ tips r2 !! 1 = Some (tip_missing (take 3 (missing_keywords r2))))
  | BadRequest e1, BadRequest e2 => e1 = e2
  | _, _ => False
  end.
Proof.
  apply (analyze_order_independent elements (λ S, reverse (elements S))).
  - intros S. reflexivity.
  - intros S. apply reverse_Permutation.
Defined.

(** The tip on missing keywords does depend on the enumeration: it names
    the first three of the missing list. *)
Example analyze_order_tips :
  let resume_text := "Seeking work" in
  let jd_text := "alpha beta gamma delta epsilon" in
  match analyze elements resume_text jd_text,
        analyze (λ S, reverse (elements S)) resume_text jd_text with
  | Ok r1, Ok r2 => tips r1 !! 1 ≠ tips r2 !! 1
  | _, _ => False
  end.
Proof. vm_compute. discriminate. Qed.
